(** * nut: line numbers for a textarea, painted on an off-screen canvas

    A shallow embedding of [src/nut.ts].  The browser is the environment:
    layout of the measuring probe, the CSS parser that takes or ignores a
    value assigned to a style, the PNG encoder behind [canvas.toDataURL],
    the timer queue and the observations of the resize observer are
    explicit, everything else is the code of the file, statement by
    statement. *)

From Stdlib Require Import ZArith NArith QArith Qround String Ascii Lia.
From Stdlib Require Import DecimalString DecimalPos DecimalN.
From stdpp Require Import base strings gmap list.

Local Open Scope string_scope.

(** ** JavaScript values that reach the code *)

(** [Map.get] answers [undefined] on a missing key, [getAttribute] answers
    [null] on a missing attribute, everything else is a string. *)
Inductive value : Type :=
  | undefined
  | null
  | str (s : string).

#[global] Instance value_eq_dec : EqDecision value.
Proof. solve_decision. Defined.

(** [a == b] on these values: [undefined] and [null] are equal to each other
    and to nothing else, strings compare by content. *)
Definition loose_eq (a b : value) : bool :=
  match a, b with
  | str x, str y => bool_decide (x = y)
  | str _, _ | _, str _ => false
  | _, _ => true
  end.

(** [a != b] *)
Definition loose_ne (a b : value) : bool := negb (loose_eq a b).

(** [a || b] on values: the empty string, [null] and [undefined] are falsy. *)
Definition js_or (a : value) (b : string) : string :=
  match a with
  | str s => if bool_decide (s = "") then b else s
  | _ => b
  end.

(** A [Map<string, string>]; [get] of a missing key is [undefined]. *)
Definition Map_get (m : gmap string value) (k : string) : value :=
  default undefined (m !! k).

Definition Map_set (k : string) (v : value) (m : gmap string value) : gmap string value :=
  <[k := v]> m.

(** ** Types of the source *)

(** Every property of [TStyles] is optional: an object may lack it ([None]),
    or have it, and then hold a string or, as [?:] allows, [undefined]
    ([Some None]). *)
Record TStyles : Type := {
  numberWidth : option (option string);
  numberPadding : option (option string);
  numberColor : option (option string);
  numberBgColor : option (option string)
}.

(** [styles.p]: [undefined] when the object lacks the property, what the
    property holds otherwise. *)
Definition read (p : option (option string)) : option string := default None p.

Record TMeasure : Type := {
  lineHeight : N;
  fontSize : N;
  paddingTop : N;
  paddingRight : N;
  nuWidth : N;
  nuPadding : N
}.

Inductive EDataAttr : Type := Width | Padding | Color | BgColor.

#[global] Instance EDataAttr_eq_dec : EqDecision EDataAttr.
Proof. solve_decision. Defined.

Definition dataAttrsMap : list (EDataAttr * string) :=
  [ (Width, "data-nut-width");
    (Padding, "data-nut-padding");
    (Color, "data-nut-color");
    (BgColor, "data-nut-bg-color") ].

Fixpoint assoc_get {A B} `{EqDecision A} (k : A) (m : list (A * B)) : option B :=
  match m with
  | [] => None
  | (k', v) :: m' => if decide (k = k') then Some v else assoc_get k m'
  end.

Definition dataAttrs : list string := dataAttrsMap.*2.

Definition mutationStyleProps : list string :=
  [ "paddingTop"; "paddingRight"; "lineHeight"; "fontSize"; "fontFamily" ].

(** A [CSSStyleDeclaration] read by property name; every property of a
    computed style is a string. *)
Definition CSSStyleDeclaration : Type := string -> string.

(** The host element as the code sees it. *)
Record HTMLElement : Type := {
  attributes : gmap string string;
  cssText : string;
  scrollHeight : N;
  computedStyle : CSSStyleDeclaration
}.

Definition getAttribute (el : HTMLElement) (name : string) : value :=
  match attributes el !! name with
  | Some s => str s
  | None => null
  end.

Definition getComputedStyle (el : HTMLElement) : CSSStyleDeclaration :=
  computedStyle el.

(** ** class StyleMutation *)

Module StyleMutation.

Record t : Type := {
  prevStyle : gmap string value;
  prevData : gmap string value
}.

Definition new : t := {| prevStyle := ∅; prevData := ∅ |}.

Definition set (style : CSSStyleDeclaration) (el : HTMLElement) (this : t) : t :=
  {| prevStyle :=
       foldl (fun m prop => Map_set prop (str (style prop)) m)
             (prevStyle this) mutationStyleProps;
     prevData :=
       foldl (fun m attr => Map_set attr (getAttribute el attr) m)
             (prevData this) dataAttrs |}.

(** One turn of the loop of [styleDiff] and [dataDiff]: [read] is the
    current value of the key. *)
Definition diff_step (read : string -> value)
    (acc : bool * gmap string value) (key : string) : bool * gmap string value :=
  let prevValue := Map_get acc.2 key in
  let value := read key in
  if loose_ne value prevValue
  then (true, Map_set key value acc.2)
  else acc.

Definition styleDiff (style : CSSStyleDeclaration) (this : t) : bool * t :=
  let r := foldl (diff_step (fun prop => str (style prop)))
                 (false, prevStyle this) mutationStyleProps in
  (r.1, {| prevStyle := r.2; prevData := prevData this |}).

Definition dataDiff (el : HTMLElement) (this : t) : bool * t :=
  let r := foldl (diff_step (getAttribute el))
                 (false, prevData this) dataAttrs in
  (r.1, {| prevStyle := prevStyle this; prevData := r.2 |}).

End StyleMutation.

(** ** Numbers *)

(** Layout lengths ([clientWidth], [clientHeight], [scrollHeight]) are
    non-negative integers; the device pixel ratio and everything multiplied
    by it is a rational, and arithmetic on rationals is exact (on integers
    below 2^31 the quotient of two doubles rounds to an integer only when
    it is one, so [Math.ceil] of it is the exact ceiling; products with
    the pixel ratio are taken without rounding).  The only place where a
    non-finite number can arise is the division that counts the lines, so
    [number] is the result type of that division alone. *)
Inductive number : Type :=
  | finite (q : Q)
  | pos_infinity
  | neg_infinity
  | NaN.

Definition N2Q (n : N) : Q := inject_Z (Z.of_N n).

Definition Qltb (a b : Q) : bool := negb (Qle_bool b a).

(** [a / b] *)
Definition js_div (a b : Q) : number :=
  if Qeq_bool b 0 then
    if Qltb 0 a then pos_infinity
    else if Qltb a 0 then neg_infinity
    else NaN
  else finite (a / b).

Definition Math_ceil (x : number) : number :=
  match x with
  | finite q => finite (inject_Z (Qceiling q))
  | other => other
  end.

(** [a < b] with a finite left operand; any comparison with [NaN] is false. *)
Definition js_lt (a : Q) (b : number) : bool :=
  match b with
  | finite q => Qltb a q
  | pos_infinity => true
  | neg_infinity => false
  | NaN => false
  end.

(** [n.toString()] of a non-negative integer (in decimal digits, as
    JavaScript prints every integer below 10^21). *)
Definition N_toString (n : N) : string := NilZero.string_of_uint (N.to_uint n).

Definition Z_toString (z : Z) : string := NilZero.string_of_int (Z.to_int z).

(** ** The browser

    What the code asks of its environment and cannot compute itself. *)

Module Box.
(** The declared style of the probe [div], longhand by longhand; the
    [padding] shorthand writes the four padding longhands.  A value is
    kept as it was assigned: what it means, and whether it means anything,
    is for the layout of the browser to say. *)
Record style : Type := {
  width : string;
  margin : string;
  paddingTop : string;
  paddingRight : string;
  paddingBottom : string;
  paddingLeft : string;
  fontFamily : string;
  fontSize : string;
  lineHeight : string
}.

Record t : Type := {
  css : style;
  innerHTML : string;
  connected : bool
}.
End Box.

Module Bitmap.
(** The drawing state of a 2D context that the code touches. *)
Record state : Type := {
  fillStyle : string;
  textAlign : string;
  font : string;
  transform : Q * Q
}.

(** What has been painted since the last reset, with the drawing state
    each call was made in. *)
Inductive op : Type :=
  | FillRect (st : state) (x y w h : Q)
  | FillText (st : state) (text : string) (x y : Q).

Record t : Type := {
  width : Z;
  height : Z;
  ops : list op
}.
End Bitmap.

Class Browser : Type := {
  (** box dimensions of a connected block, as laid out *)
  layoutHeight : Box.t -> N;
  layoutWidth : Box.t -> N;
  (** the PNG encoder of [canvas.toDataURL()] *)
  encode : Bitmap.t -> string;
  (** [Number.prototype.toString] on a number that is not an integer *)
  fraction_toString : Q -> string;
  (** [window.devicePixelRatio] *)
  devicePixelRatio : Q;
  (** the CSS parser: whether the text is a value of the property, as
      [CSS.supports(property, value)] tells *)
  supports : string -> string -> bool;
  (** the CSS parser: whether the text is a [<color>] *)
  is_color : string -> bool
}.

(** [String(x)] of a number. *)
Definition Number_toString `{Browser} (q : Q) : string :=
  let r := Qred q in
  if (Z.pos (Qden r) =? 1)%Z then Z_toString (Qnum r) else fraction_toString q.

Section Probe.
Context `{Browser}.

(** A new element declares nothing: its width is [auto], its margin and
    padding are 0, its font is inherited. *)
Definition createElement_div : Box.t :=
  {| Box.css := {| Box.width := "auto"; Box.margin := "0";
                   Box.paddingTop := "0"; Box.paddingRight := "0";
                   Box.paddingBottom := "0"; Box.paddingLeft := "0";
                   Box.fontFamily := "inherit"; Box.fontSize := "inherit";
                   Box.lineHeight := "inherit" |};
     Box.innerHTML := "";
     Box.connected := false |}.

(** An element outside the document has no layout box. *)
Definition clientHeight (box : Box.t) : N :=
  if Box.connected box then layoutHeight box else 0%N.

Definition clientWidth (box : Box.t) : N :=
  if Box.connected box then layoutWidth box else 0%N.

Definition with_css (f : Box.style -> Box.style) (box : Box.t) : Box.t :=
  {| Box.css := f (Box.css box);
     Box.innerHTML := Box.innerHTML box;
     Box.connected := Box.connected box |}.

(** A declaration of a [style] attribute: one whose value does not parse
    is dropped, and the property is as if not declared. *)
Definition declare (property undeclared v : string) : string :=
  if supports property v then v else undeclared.

(** The value of the [padding] declaration of the probe. *)
Definition probe_padding (css : CSSStyleDeclaration) : string :=
  css "paddingTop" +:+ " " +:+ css "paddingRight" +:+ " 0 0".

(** [box.setAttribute("style", "width: 0;margin: 0;padding: T R 0 0;
    font-family: F;font-size: S;line-height: L")] *)
Definition setAttribute_style (css : CSSStyleDeclaration) (box : Box.t) : Box.t :=
  let sides := supports "padding" (probe_padding css) in
  with_css (fun _ =>
    {| Box.width := "0"; Box.margin := "0";
       Box.paddingTop := if sides then css "paddingTop" else "0";
       Box.paddingRight := if sides then css "paddingRight" else "0";
       Box.paddingBottom := "0"; Box.paddingLeft := "0";
       Box.fontFamily := declare "font-family" "inherit" (css "fontFamily");
       Box.fontSize := declare "font-size" "inherit" (css "fontSize");
       Box.lineHeight := declare "line-height" "inherit" (css "lineHeight") |}) box.


Definition set_connected (b : bool) (box : Box.t) : Box.t :=
  {| Box.css := Box.css box; Box.innerHTML := Box.innerHTML box; Box.connected := b |}.

Definition appendChild := set_connected true.
Definition removeChild := set_connected false.

(** An assignment to a property of [box.style]: the empty string removes
    the declaration, which leaves the property at its initial value; a text
    that is no value of the property is ignored, and the declaration stays
    as it was. *)
Definition assign (property initial v old : string) : string :=
  if bool_decide (v = "") then initial
  else if supports property v then v else old.

Definition set_paddingRight (v : string) : Box.t -> Box.t :=
  with_css (fun s =>
    {| Box.width := Box.width s; Box.margin := Box.margin s;
       Box.paddingTop := Box.paddingTop s;
       Box.paddingRight := assign "padding-right" "0" v (Box.paddingRight s);
       Box.paddingBottom := Box.paddingBottom s; Box.paddingLeft := Box.paddingLeft s;
       Box.fontFamily := Box.fontFamily s; Box.fontSize := Box.fontSize s;
       Box.lineHeight := Box.lineHeight s |}).

(** The two assignments of constants, [padding = "0"] and
    [lineHeight = "1"], are of values every CSS parser takes. *)
Definition set_padding (v : string) : Box.t -> Box.t :=
  with_css (fun s =>
    {| Box.width := Box.width s; Box.margin := Box.margin s;
       Box.paddingTop := v; Box.paddingRight := v;
       Box.paddingBottom := v; Box.paddingLeft := v;
       Box.fontFamily := Box.fontFamily s; Box.fontSize := Box.fontSize s;
       Box.lineHeight := Box.lineHeight s |}).

Definition set_width (v : string) : Box.t -> Box.t :=
  with_css (fun s =>
    {| Box.width := assign "width" "auto" v (Box.width s); Box.margin := Box.margin s;
       Box.paddingTop := Box.paddingTop s; Box.paddingRight := Box.paddingRight s;
       Box.paddingBottom := Box.paddingBottom s; Box.paddingLeft := Box.paddingLeft s;
       Box.fontFamily := Box.fontFamily s; Box.fontSize := Box.fontSize s;
       Box.lineHeight := Box.lineHeight s |}).

Definition set_lineHeight (v : string) : Box.t -> Box.t :=
  with_css (fun s =>
    {| Box.width := Box.width s; Box.margin := Box.margin s;
       Box.paddingTop := Box.paddingTop s; Box.paddingRight := Box.paddingRight s;
       Box.paddingBottom := Box.paddingBottom s; Box.paddingLeft := Box.paddingLeft s;
       Box.fontFamily := Box.fontFamily s; Box.fontSize := Box.fontSize s;
       Box.lineHeight := v |}).

Definition set_innerHTML (v : string) (box : Box.t) : Box.t :=
  {| Box.css := Box.css box; Box.innerHTML := v; Box.connected := Box.connected box |}.

(** A value that is a string or [undefined], where a string is expected. *)
Definition DOMString (v : option string) : string := default "undefined" v.

Definition getMeasure (css : CSSStyleDeclaration) (styles : TStyles) : TMeasure :=
  let box := createElement_div in
  let box := setAttribute_style css box in
  let box := appendChild box in
  let paddingTop := clientHeight box in
  let paddingRight := clientWidth box in
  let box := set_paddingRight (DOMString (read (numberPadding styles))) box in
  let nuPadding := clientWidth box in
  let box := set_padding "0" box in
  let box := set_width (DOMString (read (numberWidth styles))) box in
  let nuWidth := clientWidth box in
  let box := set_innerHTML "&nbsp;" box in
  let lineHeight := clientHeight box in
  let box := set_lineHeight "1" box in
  let fontSize := clientHeight box in
  let box := removeChild box in
  {| lineHeight := lineHeight; fontSize := fontSize;
     paddingRight := paddingRight; paddingTop := paddingTop;
     nuWidth := nuWidth; nuPadding := nuPadding |}.

End Probe.

(** ** The canvas *)

Module Canvas.

Record t : Type := {
  bitmap : Bitmap.t;
  ctx : Bitmap.state
}.

Definition width (c : t) : Z := Bitmap.width (bitmap c).
Definition height (c : t) : Z := Bitmap.height (bitmap c).

Definition default_state : Bitmap.state :=
  {| Bitmap.fillStyle := "#000000";
     Bitmap.textAlign := "start";
     Bitmap.font := "10px sans-serif";
     Bitmap.transform := (1%Q, 1%Q) |}.

Definition createElement : t :=
  {| bitmap := {| Bitmap.width := 300; Bitmap.height := 150; Bitmap.ops := [] |};
     ctx := default_state |}.

(** A number stored in an [unsigned long] attribute: truncated, taken
    modulo 2^32, and replaced by the attribute's default when it does not
    fit 31 bits. *)
Definition unsigned_long (fallback : Z) (q : Q) : Z :=
  let v := (Z.quot (Qnum q) (Z.pos (Qden q)) mod 2 ^ 32)%Z in
  if (v <=? 2147483647)%Z then v else fallback.

(** Assigning [width] or [height] clears the bitmap and resets the
    drawing state, whatever the value. *)
Definition set_width (v : Q) (c : t) : t :=
  {| bitmap := {| Bitmap.width := unsigned_long 300 v;
                  Bitmap.height := height c;
                  Bitmap.ops := [] |};
     ctx := default_state |}.

Definition set_height (v : Q) (c : t) : t :=
  {| bitmap := {| Bitmap.width := width c;
                  Bitmap.height := unsigned_long 150 v;
                  Bitmap.ops := [] |};
     ctx := default_state |}.

Definition with_ctx (f : Bitmap.state -> Bitmap.state) (c : t) : t :=
  {| bitmap := bitmap c; ctx := f (ctx c) |}.

Definition scale (x y : Q) : t -> t :=
  with_ctx (fun s =>
    {| Bitmap.fillStyle := Bitmap.fillStyle s;
       Bitmap.textAlign := Bitmap.textAlign s;
       Bitmap.font := Bitmap.font s;
       Bitmap.transform := ((Bitmap.transform s).1 * x, (Bitmap.transform s).2 * y)%Q |}).

(** A text that is no colour is ignored, and the fill style stays as it
    was.  (The text is kept as written, where the browser would serialise
    the colour; the code never reads it back.) *)
Definition set_fillStyle `{Browser} (v : string) : t -> t :=
  with_ctx (fun s =>
    {| Bitmap.fillStyle := if is_color v then v else Bitmap.fillStyle s;
       Bitmap.textAlign := Bitmap.textAlign s;
       Bitmap.font := Bitmap.font s;
       Bitmap.transform := Bitmap.transform s |}).

Definition set_textAlign (v : string) : t -> t :=
  with_ctx (fun s =>
    {| Bitmap.fillStyle := Bitmap.fillStyle s;
       Bitmap.textAlign := v;
       Bitmap.font := Bitmap.font s;
       Bitmap.transform := Bitmap.transform s |}).

(** The code assigns [textAlign] the constant ["end"], and [font] a size in
    pixels followed by a computed font family: both are values the canvas
    takes. *)
Definition set_font (v : string) : t -> t :=
  with_ctx (fun s =>
    {| Bitmap.fillStyle := Bitmap.fillStyle s;
       Bitmap.textAlign := Bitmap.textAlign s;
       Bitmap.font := v;
       Bitmap.transform := Bitmap.transform s |}).

Definition paint (o : Bitmap.op) (c : t) : t :=
  {| bitmap := {| Bitmap.width := width c;
                  Bitmap.height := height c;
                  Bitmap.ops := Bitmap.ops (bitmap c) ++ [o] |};
     ctx := ctx c |}.

Definition fillRect (x y w h : Q) (c : t) : t :=
  paint (Bitmap.FillRect (ctx c) x y w h) c.

Definition fillText (text : string) (x y : Q) (c : t) : t :=
  paint (Bitmap.FillText (ctx c) text x y) c.

Definition toDataURL `{Browser} (c : t) : string := encode (bitmap c).

End Canvas.

(** The numerals on a bitmap, in painting order. *)
Definition numerals (b : Bitmap.t) : list string :=
  omap (fun o => match o with
                 | Bitmap.FillText _ text _ _ => Some text
                 | Bitmap.FillRect _ _ _ _ _ => None
                 end) (Bitmap.ops b).

(** ** Timers and [debounce] *)

Module Timer.

(** What the variable [timeout] of a debounced function holds. *)
Inductive handle : Type :=
  | unset              (* declared, never assigned *)
  | cleared            (* [null], after the callback ran *)
  | id (n : nat).

#[global] Instance handle_eq_dec : EqDecision handle.
Proof. solve_decision. Defined.

(** The clock and the timers that have been set and have neither run
    nor been cleared, as (identifier, due time), oldest first. *)
Record queue : Type := {
  now : nat;
  nextId : nat;
  pending : list (nat * nat)
}.

Definition setTimeout (wait : nat) (q : queue) : nat * queue :=
  (nextId q,
   {| now := now q;
      nextId := S (nextId q);
      pending := pending q ++ [(nextId q, (now q + wait)%nat)] |}).

Definition remove (n : nat) (q : queue) : queue :=
  {| now := now q;
     nextId := nextId q;
     pending := filter (fun p => p.1 ≠ n) (pending q) |}.

Definition clearTimeout (h : handle) (q : queue) : queue :=
  match h with
  | id n => remove n q
  | _ => q
  end.

Definition tick (t : nat) (q : queue) : queue :=
  {| now := now q `max` t; nextId := nextId q; pending := pending q |}.

End Timer.

Section Debounce.
Context {S : Type}.

(** The closure made by [debounce(func, wait, ctx)] together with the
    timer queue it lives on; [executed] logs the clock at each
    [func.call(ctx)]. *)
Record debounced : Type := {
  timers : Timer.queue;
  timeout : Timer.handle;
  context : S;
  executed : list nat
}.

Variable func : S -> S.
Variable wait : nat.

Definition debounce (q : Timer.queue) (ctx : S) : debounced :=
  {| timers := q; timeout := Timer.unset; context := ctx; executed := [] |}.

(** A call of the returned function. *)
Definition call (d : debounced) : debounced :=
  let q := Timer.clearTimeout (timeout d) (timers d) in
  let '(i, q) := Timer.setTimeout wait q in
  {| timers := q; timeout := Timer.id i;
     context := context d; executed := executed d |}.

(** The function handed to [setTimeout]. *)
Definition expire (d : debounced) : debounced :=
  {| timers := timers d;
     timeout := Timer.cleared;
     context := func (context d);
     executed := executed d ++ [Timer.now (timers d)] |}.

(** The event loop up to time [t]: every pending timer that is due runs,
    oldest first, at its due time. *)
Fixpoint fire (t : nat) (due : list (nat * nat)) (d : debounced) : debounced :=
  match due with
  | [] => d
  | (i, at_) :: due' =>
      if (at_ <=? t)%nat then
        fire t due'
          (expire {| timers := Timer.tick at_ (Timer.remove i (timers d));
                     timeout := timeout d;
                     context := context d;
                     executed := executed d |})
      else fire t due' d
  end.

Definition elapse (t : nat) (d : debounced) : debounced :=
  let d := fire t (Timer.pending (timers d)) d in
  {| timers := Timer.tick t (timers d);
     timeout := timeout d; context := context d; executed := executed d |}.

(** Calls at the given times, in this order.  A call made at the very
    instant a timer is due finds it run already: which of the two comes
    first then is the event loop's choice, by the order in which the caller
    and the timer were queued, and the statements about [calls] below leave
    calls at such an instant out. *)
Definition calls (times : list nat) (d : debounced) : debounced :=
  foldl (fun d t => call (elapse t d)) d times.

(** The closure right after a call at time [t] that found no other
    timer pending: one timer, due [wait] later. *)
Definition armed (i next t : nat) (ctx : S) (log : list nat) : debounced :=
  {| timers := {| Timer.now := t; Timer.nextId := next;
                  Timer.pending := [(i, (t + wait)%nat)] |};
     timeout := Timer.id i;
     context := ctx;
     executed := log |}.

End Debounce.

Arguments debounced : clear implicits.

(** ** class Nu *)

Module Nu.
Section WithBrowser.
Context `{Browser}.

Record t : Type := {
  el : HTMLElement;
  styleMutation : StyleMutation.t;
  canvas : Canvas.t;
  styles : option TStyles;
  dpr : Q
}.

Definition with_el (f : HTMLElement -> HTMLElement) (this : t) : t :=
  {| el := f (el this); styleMutation := styleMutation this;
     canvas := canvas this; styles := styles this; dpr := dpr this |}.

Definition with_styleMutation (f : StyleMutation.t -> StyleMutation.t) (this : t) : t :=
  {| el := el this; styleMutation := f (styleMutation this);
     canvas := canvas this; styles := styles this; dpr := dpr this |}.

Definition with_canvas (f : Canvas.t -> Canvas.t) (this : t) : t :=
  {| el := el this; styleMutation := styleMutation this;
     canvas := f (canvas this); styles := styles this; dpr := dpr this |}.

Definition with_styles (s : option TStyles) (this : t) : t :=
  {| el := el this; styleMutation := styleMutation this;
     canvas := canvas this; styles := s; dpr := dpr this |}.

(** [constructor(el, styles?)] *)
Definition new (host : HTMLElement) (styles0 : option TStyles) : t :=
  let canvas0 := Canvas.createElement in
  let dpr0 := if Qeq_bool devicePixelRatio 0 then 1%Q else devicePixelRatio in
  let canvas0 := Canvas.scale dpr0 dpr0 canvas0 in
  {| el := host; styleMutation := StyleMutation.new;
     canvas := canvas0; styles := styles0; dpr := dpr0 |}.

Definition getAttr (attr : EDataAttr) (defaultValue : string) (this : t) : string :=
  js_or (getAttribute (el this) (DOMString (assoc_get attr dataAttrsMap))) defaultValue.

(** The object [{}]. *)
Definition empty_styles : TStyles :=
  {| numberWidth := None; numberPadding := None;
     numberColor := None; numberBgColor := None |}.

(** A property of an object literal followed by [...spread]: the spread
    object wins where it has the property, whatever the property holds,
    [undefined] too. *)
Definition spread (literal : string) (over : option (option string))
    : option (option string) :=
  match over with
  | Some v => Some v
  | None => Some (Some literal)
  end.

Definition ensureStyles (this : t) : TStyles * t :=
  let this := match styles this with
              | None => with_styles (Some empty_styles) this
              | Some _ => this
              end in
  let over := default empty_styles (styles this) in
  ({| numberPadding := spread (getAttr Padding "8px" this) (numberPadding over);
      numberWidth := spread (getAttr Width "64px" this) (numberWidth over);
      numberColor := spread (getAttr Color "#666" this) (numberColor over);
      numberBgColor := spread (getAttr BgColor "#f4f4f4" this) (numberBgColor over) |},
   this).

(** The declarations [setStyle] joins and appends. *)
Definition setStyle_css (mesaure : TMeasure) (dataURL : string) : list string :=
  [ "padding-left: " +:+ N_toString (nuWidth mesaure + paddingRight mesaure) +:+ "px";
    "box-sizing: border-box";
    "background-repeat: no-repeat";
    "background-attachment: local";
    "background-size: " +:+ N_toString (nuWidth mesaure) +:+ "px auto";
    "background-image: url(" +:+ dataURL +:+ ")" ].

Definition setStyle (mesaure : TMeasure) (dataURL : string) : t -> t :=
  with_el (fun host =>
    {| attributes := attributes host;
       cssText := cssText host +:+ String.concat ";" (setStyle_css mesaure dataURL);
       scrollHeight := scrollHeight host;
       computedStyle := computedStyle host |}).

Definition drawLine (measure : TMeasure) (index : N) (lineHeight fontSize : Q)
    (this : t) : t :=
  let x := (inject_Z (Canvas.width (canvas this))
            - N2Q (nuPadding measure) * dpr this * 2)%Q in
  let y := (N2Q (paddingTop measure) * dpr this + lineHeight * N2Q index
            + (lineHeight + fontSize) / 2)%Q in
  with_canvas (Canvas.fillText (N_toString (index + 1)) x y) this.

(** [for (let index = ...; index < lines; index++) this.drawLine(...)];
    [None] when the loop is still running after [fuel] tests of its
    condition. *)
Fixpoint draw_lines (fuel : nat) (measure : TMeasure) (index : N) (lines : number)
    (lineHeightDPR fontSizeDPR : Q) (this : t) : option t :=
  match fuel with
  | O => None
  | S fuel' =>
      if js_lt (N2Q index) lines
      then draw_lines fuel' measure (index + 1)%N lines lineHeightDPR fontSizeDPR
             (drawLine measure index lineHeightDPR fontSizeDPR this)
      else Some this
  end.

(** [Math.ceil(scrollHeight / measure.lineHeight)] *)
Definition line_count (scrollHeight0 : N) (measure : TMeasure) : number :=
  Math_ceil (js_div (N2Q scrollHeight0) (N2Q (lineHeight measure))).

Definition handleRender (fuel : nat) (this : t) : option t :=
  let css := getComputedStyle (el this) in
  let '(styles0, this) := ensureStyles this in
  let measure := getMeasure css styles0 in
  let scrollHeight0 := scrollHeight (el this) in
  let this := with_styleMutation (StyleMutation.set css (el this)) this in
  let this := with_canvas (Canvas.set_width (N2Q (nuWidth measure) * dpr this)) this in
  let this := with_canvas (Canvas.set_height (N2Q scrollHeight0 * dpr this)) this in
  let this := with_canvas
                (Canvas.set_fillStyle (DOMString (read (numberBgColor styles0)))) this in
  let this := with_canvas (fun c =>
                Canvas.fillRect 0 0 (inject_Z (Canvas.width c))
                                (inject_Z (Canvas.height c)) c) this in
  let this := with_canvas
                (Canvas.set_fillStyle (DOMString (read (numberColor styles0)))) this in
  let this := with_canvas (Canvas.set_textAlign "end") this in
  let fontSizeDPR := (N2Q (fontSize measure) * dpr this)%Q in
  let fontSize0 := Number_toString fontSizeDPR +:+ "px" in
  let lineHeightDPR := (N2Q (lineHeight measure) * dpr this)%Q in
  let this := with_canvas (Canvas.set_font (fontSize0 +:+ " " +:+ css "fontFamily")) this in
  let lines := line_count scrollHeight0 measure in
  match draw_lines fuel measure 0 lines lineHeightDPR fontSizeDPR this with
  | None => None
  | Some this => Some (setStyle measure (Canvas.toDataURL (canvas this)) this)
  end.

(** [render = debounce(this.handleRender, 20, this)]: the context is the
    instance, or nothing once a render body has failed to return. *)
Definition render_wait : nat := 20.

Definition render : debounced (option t) -> debounced (option t) :=
  call render_wait.

Definition render_body (fuel : nat) (this : option t) : option t :=
  this ≫= handleRender fuel.

(** *** The outcome of a pass in closed form

    What [handleRender] computes, written without the loop; the theorems
    below show that this is what the code does. *)

(** What a pass measures. *)
Definition measured (this : t) : TMeasure :=
  getMeasure (getComputedStyle (el this)) (ensureStyles this).1.

(** How often the loop body runs for a given bound, if it stops at all. *)
Definition turns (lines : number) : option nat :=
  match lines with
  | finite q => Some (Z.to_nat (Qceiling q))
  | pos_infinity => None
  | neg_infinity => Some O
  | NaN => Some O
  end.

Definition raster_width (this : t) : Z :=
  Canvas.unsigned_long 300 (N2Q (nuWidth (measured this)) * dpr this).

Definition raster_height (this : t) : Z :=
  Canvas.unsigned_long 150 (N2Q (scrollHeight (el this)) * dpr this).

(** The fill style after an assignment of [v] to a context whose fill
    style was [old]. *)
Definition fill (v : option string) (old : string) : string :=
  if is_color (DOMString v) then DOMString v else old.

Definition background_state (this : t) : Bitmap.state :=
  {| Bitmap.fillStyle := fill (read (numberBgColor (ensureStyles this).1)) "#000000";
     Bitmap.textAlign := "start";
     Bitmap.font := "10px sans-serif";
     Bitmap.transform := (1%Q, 1%Q) |}.

Definition numeral_state (this : t) : Bitmap.state :=
  {| Bitmap.fillStyle :=
       fill (read (numberColor (ensureStyles this).1))
            (fill (read (numberBgColor (ensureStyles this).1)) "#000000");
     Bitmap.textAlign := "end";
     Bitmap.font := (Number_toString (N2Q (fontSize (measured this)) * dpr this) +:+ "px")
                    +:+ " " +:+ computedStyle (el this) "fontFamily";
     Bitmap.transform := (1%Q, 1%Q) |}.

Definition numeral_op (this : t) (index : N) : Bitmap.op :=
  let m := measured this in
  Bitmap.FillText (numeral_state this) (N_toString (index + 1))
    (inject_Z (raster_width this) - N2Q (nuPadding m) * dpr this * 2)%Q
    (N2Q (paddingTop m) * dpr this + N2Q (lineHeight m) * dpr this * N2Q index
     + (N2Q (lineHeight m) * dpr this + N2Q (fontSize m) * dpr this) / 2)%Q.

Definition indices (n : nat) : list N := N.of_nat <$> seq 0 n.

Definition raster (n : nat) (this : t) : Bitmap.t :=
  {| Bitmap.width := raster_width this;
     Bitmap.height := raster_height this;
     Bitmap.ops :=
       Bitmap.FillRect (background_state this) 0 0
         (inject_Z (raster_width this)) (inject_Z (raster_height this))
       :: (numeral_op this <$> indices n) |}.

(** One property of the configuration: what the object given at [attach]
    holds in it if it has the property, else the host's attribute unless
    it is missing or empty, else the default. *)
Definition resolve (given : option (option string)) (attribute fallback : string)
    (this : t) : option string :=
  match given with
  | Some v => v
  | None =>
      Some match attributes (el this) !! attribute with
           | Some a => if bool_decide (a = "") then fallback else a
           | None => fallback
           end
  end.

Definition pass (n : nat) (this : t) : t :=
  {| el := {| attributes := attributes (el this);
              cssText := cssText (el this)
                         +:+ String.concat ";"
                               (setStyle_css (measured this) (encode (raster n this)));
              scrollHeight := scrollHeight (el this);
              computedStyle := computedStyle (el this) |};
     styleMutation :=
       StyleMutation.set (computedStyle (el this)) (el this) (styleMutation this);
     canvas := {| Canvas.bitmap := raster n this; Canvas.ctx := numeral_state this |};
     styles := Some (default empty_styles (styles this));
     dpr := dpr this |}.

End WithBrowser.
End Nu.

(** The least [n] with [s <= n * l], for [l > 0]. *)
Definition ceil_div (s l : N) : N := ((s + l - 1) / l)%N.

(** The calls of a debounced function that are followed by a quiet
    interval: every call but those with a successor less than [wait]
    later. *)
Fixpoint survivors (wait : nat) (times : list nat) : list nat :=
  match times with
  | [] => []
  | t :: rest =>
      match rest with
      | [] => [t]
      | t' :: _ =>
          if (t + wait <=? t')%nat then t :: survivors wait rest
          else survivors wait rest
      end
  end.

(** Consecutive elements of a list are related by [R]. *)
Fixpoint chain (R : nat -> nat -> Prop) (times : list nat) : Prop :=
  match times with
  | [] => True
  | t :: rest =>
      match rest with
      | [] => True
      | t' :: _ => R t t' ∧ chain R rest
      end
  end.

(** ** Reading what was written *)

(** [strip p s] is what follows the prefix [p] in [s]. *)
Fixpoint strip (p s : string) : option string :=
  match p with
  | EmptyString => Some s
  | String a p' =>
      match s with
      | EmptyString => None
      | String b s' => if Ascii.eqb a b then strip p' s' else None
      end
  end.

(** The values given to [property] by the declarations [css], in order. *)
Definition declared (property : string) (css : list string) : list string :=
  omap (strip (property +:+ ": ")) css.


(** ** A reference browser

    A small box model for lengths written in pixels, used to run the
    embedding on concrete hosts: content-box sizing, one line of text per
    non-empty block, [line-height] either in pixels or a multiple of the
    font size. *)

Module Reference.

Definition digit (c : ascii) : option N :=
  let n := N_of_ascii c in
  if ((48 <=? n) && (n <=? 57))%N then Some (n - 48)%N else None.

(** The leading decimal digits of a string and what follows them. *)
Fixpoint digits (s : string) (acc : N) : N * string :=
  match s with
  | EmptyString => (acc, s)
  | String c rest =>
      match digit c with
      | Some d => digits rest (acc * 10 + d)%N
      | None => (acc, s)
      end
  end.

Definition px (s : string) : N := (digits s 0).1.

Definition line_px (line_height font_size : string) : N :=
  let '(n, unit) := digits line_height 0 in
  if bool_decide (unit = "px") then n else (n * px font_size)%N.

Definition layout_width (box : Box.t) : N :=
  let s := Box.css box in
  (px (Box.width s) + px (Box.paddingLeft s) + px (Box.paddingRight s))%N.

Definition layout_height (box : Box.t) : N :=
  let s := Box.css box in
  (px (Box.paddingTop s) + px (Box.paddingBottom s)
   + (if bool_decide (Box.innerHTML box = "") then 0
      else line_px (Box.lineHeight s) (Box.fontSize s)))%N.

Fixpoint decimals (fuel : nat) (r d : Z) : string :=
  match fuel with
  | O => ""
  | S fuel' =>
      if (r =? 0)%Z then ""
      else Z_toString (r * 10 / d) +:+ decimals fuel' (r * 10 mod d)%Z d
  end.

Definition show_fraction (q : Q) : string :=
  let d := Z.pos (Qden q) in
  Z_toString (Qnum q / d) +:+ "." +:+ decimals 17 (Qnum q mod d)%Z d.

Definition show_Q (q : Q) : string :=
  Z_toString (Qnum (Qred q)) +:+ "/" +:+ Z_toString (Z.pos (Qden (Qred q))).

Definition show_state (s : Bitmap.state) : string :=
  Bitmap.fillStyle s +:+ "," +:+ Bitmap.textAlign s +:+ "," +:+ Bitmap.font s
  +:+ "," +:+ show_Q (Bitmap.transform s).1 +:+ "," +:+ show_Q (Bitmap.transform s).2.

Definition show_op (o : Bitmap.op) : string :=
  match o with
  | Bitmap.FillRect st x y w h =>
      ";rect," +:+ show_state st +:+ "," +:+ show_Q x +:+ "," +:+ show_Q y
      +:+ "," +:+ show_Q w +:+ "," +:+ show_Q h
  | Bitmap.FillText st text x y =>
      ";text," +:+ show_state st +:+ "," +:+ text +:+ "," +:+ show_Q x
      +:+ "," +:+ show_Q y
  end.

(** Not a PNG, but a function of the bitmap and of nothing else. *)
Definition show_bitmap (b : Bitmap.t) : string :=
  "data:," +:+ Z_toString (Bitmap.width b) +:+ "x" +:+ Z_toString (Bitmap.height b)
  +:+ String.concat "" (show_op <$> Bitmap.ops b).

(** The lengths of this browser: digits followed by [px], or zero. *)
Definition is_length (s : string) : bool :=
  match s with
  | EmptyString => false
  | String c _ =>
      match digit c with
      | None => false
      | Some _ =>
          let '(n, unit) := digits s 0 in
          bool_decide (unit = "px") || (bool_decide (unit = "") && (n =? 0)%N)
      end
  end.

Definition hex (c : ascii) : bool :=
  let n := N_of_ascii c in
  ((48 <=? n) && (n <=? 57) || (65 <=? n) && (n <=? 70) || (97 <=? n) && (n <=? 102))%N.

(** The colours of this browser: [#] and three or six hexadecimal digits. *)
Definition is_hex_color (s : string) : bool :=
  match s with
  | String "#" rest =>
      forallb hex (list_ascii_of_string rest)
      && ((String.length rest =? 3)%nat || (String.length rest =? 6)%nat)
  | _ => false
  end.

(** A line height: a length, or a number of font sizes. *)
Definition is_line_height (s : string) : bool :=
  match s with
  | EmptyString => false
  | String c _ =>
      match digit c with
      | None => false
      | Some _ =>
          let '(_, unit) := digits s 0 in
          bool_decide (unit = "px") || bool_decide (unit = "")
      end
  end.

(** The words of a text, single spaces between them. *)
Fixpoint split (s word : string) : list string :=
  match s with
  | EmptyString => [word]
  | String c rest =>
      if Ascii.eqb c " " then word :: split rest ""
      else split rest (word +:+ String c "")
  end.

Definition supports_value (property v : string) : bool :=
  if bool_decide (property = "padding") then
    forallb is_length (split v "") && (length (split v "") <=? 4)%nat
  else if bool_decide (property = "padding-right") || bool_decide (property = "width")
          || bool_decide (property = "font-size") then is_length v
  else if bool_decide (property = "line-height") then is_line_height v
  else if bool_decide (property = "font-family") then negb (bool_decide (v = ""))
  else false.

Definition browser (ratio : Q) : Browser :=
  {| layoutHeight := layout_height;
     layoutWidth := layout_width;
     encode := show_bitmap;
     fraction_toString := show_fraction;
     devicePixelRatio := ratio;
     supports := supports_value;
     is_color := is_hex_color |}.

(** A computed style with the five properties the code reads. *)
Definition computed (padding_top padding_right line_height font_size font_family : string)
    : CSSStyleDeclaration :=
  fun prop =>
    if bool_decide (prop = "paddingTop") then padding_top
    else if bool_decide (prop = "paddingRight") then padding_right
    else if bool_decide (prop = "lineHeight") then line_height
    else if bool_decide (prop = "fontSize") then font_size
    else if bool_decide (prop = "fontFamily") then font_family
    else "".

(** A textarea without attributes, 16px monospace. *)
Definition host (line_height : string) (scroll_height : N) : HTMLElement :=
  {| attributes := ∅;
     cssText := "";
     scrollHeight := scroll_height;
     computedStyle := computed "0px" "4px" line_height "16px" "monospace" |}.

(** [new Nu(host)] in the reference browser. *)
Definition nu (ratio : Q) (line_height : string) (scroll_height : N) : Nu.t :=
  @Nu.new (browser ratio) (host line_height scroll_height) None.

(** The reference browser on a display with one device pixel per pixel. *)
#[global] Instance standard : Browser := browser 1.

(** Five lines of 20px. *)
Definition five_lines : Nu.t := nu 1 "20px" 100.

End Reference.

(** ** Observers and attachment *)

(** The attached instances, by host node: a [Nu] object with its debounced
    [render].  [nuMutationObserver.nuMap], [nuResizeObserver.nuMap] and the
    [input] listener of each host are set up together by [watch] and hold
    the same object, which the callbacks change in place: one store stands
    for the three.  (Attaching a node twice, which would leave the listener
    of the first object behind, is outside this model.)

    The browser's [MutationObserver] delivers records for the nodes it was
    told to observe and delivers none of its own accord when a node is
    first observed: the records are the callback's input, and the callback
    skips those whose target is not in the store.  The browser's
    [ResizeObserver] does deliver of its own accord, and first of all for
    a node just observed: its observations are kept next to the store. *)

Record MutationRecord : Type := {
  attributeName : value;
  type : string;
  target : nat
}.

Definition with_context {S : Type} (f : S -> S) (d : debounced S) : debounced S :=
  {| timers := timers d; timeout := timeout d;
     context := f (context d); executed := executed d |}.

Module NuMutationObserver.

(** [options.attributeFilter] *)
Definition attributeFilter : list string := "style" :: dataAttrs.

(** The body of the callback's loop once the instance is found.  An
    instance whose render body has not returned gets no further turn. *)
Definition notify (attributeName0 : value) (d : debounced (option Nu.t))
    : debounced (option Nu.t) :=
  match context d with
  | None => d
  | Some nu =>
      if loose_eq attributeName0 (str "style") then
        let r := StyleMutation.styleDiff (getComputedStyle (Nu.el nu)) (Nu.styleMutation nu) in
        let d := with_context (fun _ => Some (Nu.with_styleMutation (fun _ => r.2) nu)) d in
        if r.1 then Nu.render d else d
      else
        let r := StyleMutation.dataDiff (Nu.el nu) (Nu.styleMutation nu) in
        let d := with_context (fun _ => Some (Nu.with_styleMutation (fun _ => r.2) nu)) d in
        if r.1 then Nu.render d else d
  end.

Definition deliver (nuMap : gmap nat (debounced (option Nu.t))) (r : MutationRecord)
    : gmap nat (debounced (option Nu.t)) :=
  if loose_ne (str (type r)) (str "attributes") then nuMap
  else
    match nuMap !! target r with
    | None => nuMap
    | Some d => <[target r := notify (attributeName r) d]> nuMap
    end.

Definition callback (mutationsList : list MutationRecord)
    (nuMap : gmap nat (debounced (option Nu.t))) : gmap nat (debounced (option Nu.t)) :=
  foldl deliver nuMap mutationsList.

Definition observe (node : nat) (d : debounced (option Nu.t))
    (nuMap : gmap nat (debounced (option Nu.t))) : gmap nat (debounced (option Nu.t)) :=
  <[node := d]> nuMap.

End NuMutationObserver.

Module ResizeObserver.

(** The observations of a [ResizeObserver] are kept in the order they were
    made, as a list of pairs: the target and the content box, width and
    height, last reported for it.  A new observation starts at 0 by 0. *)

Definition unobserve (node : nat) (o : list (nat * (N * N))) : list (nat * (N * N)) :=
  filter (fun p => p.1 ≠ node) o.

(** [observer.observe(el)]: the observation of a target observed before
    is replaced. *)
Definition observe (node : nat) (o : list (nat * (N * N))) : list (nat * (N * N)) :=
  (unobserve node o ++ [(node, (0, 0)%N)])%list.

(** The targets whose content box, as laid out now, is not the one last
    reported: the entries of the next delivery. *)
Definition active (box : nat -> N * N) (o : list (nat * (N * N))) : list nat :=
  (filter (fun p => box p.1 ≠ p.2) o).*1.

(** The observations once the delivery is made. *)
Definition report (box : nat -> N * N) (o : list (nat * (N * N)))
    : list (nat * (N * N)) :=
  (fun p => (p.1, box p.1)) <$> o.

End ResizeObserver.

Module NuResizeObserver.

Record t : Type := {
  nuMap : gmap nat (debounced (option Nu.t));
  observer : list (nat * (N * N))
}.

Definition deliver (nuMap : gmap nat (debounced (option Nu.t))) (target0 : nat)
    : gmap nat (debounced (option Nu.t)) :=
  match nuMap !! target0 with
  | Some d => <[target0 := Nu.render d]> nuMap
  | None => nuMap
  end.

(** The callback, on the targets of its entries. *)
Definition callback (entries : list nat)
    (nuMap : gmap nat (debounced (option Nu.t))) : gmap nat (debounced (option Nu.t)) :=
  foldl deliver nuMap entries.

Definition observe (node : nat) (d : debounced (option Nu.t)) (this : t) : t :=
  {| nuMap := <[node := d]> (nuMap this);
     observer := ResizeObserver.observe node (observer this) |}.

(** A delivery by the browser at time [T], the instances having lived
    until then: the callback is called with an entry for every observed
    node whose content box is not the one last reported, and the boxes
    are taken note of. *)
Definition report `{Browser} (fuel T : nat) (box : nat -> N * N) (this : t) : t :=
  {| nuMap := callback (ResizeObserver.active box (observer this))
                       (elapse (Nu.render_body fuel) T <$> nuMap this);
     observer := ResizeObserver.report box (observer this) |}.

End NuResizeObserver.

(** A clock at [t] with no timer set. *)
Definition idle_queue (t : nat) : Timer.queue :=
  {| Timer.now := t; Timer.nextId := 0; Timer.pending := [] |}.

Section Attach.
Context `{Browser}.

(** The two observers as the module creates them. *)
Definition no_observations : NuResizeObserver.t :=
  {| NuResizeObserver.nuMap := ∅; NuResizeObserver.observer := [] |}.

(** [nu.watch()] *)
Definition watch (node : nat) (d : debounced (option Nu.t))
    (page : NuResizeObserver.t) : NuResizeObserver.t :=
  let page := NuResizeObserver.observe node d page in
  {| NuResizeObserver.nuMap :=
       NuMutationObserver.observe node d (NuResizeObserver.nuMap page);
     NuResizeObserver.observer := NuResizeObserver.observer page |}.

(** [nut(el, styles)] at time [t]. *)
Definition nut (t : nat) (node : nat) (host : HTMLElement) (styles0 : option TStyles)
    (page : NuResizeObserver.t) : NuResizeObserver.t :=
  watch node (debounce (idle_queue t) (Some (Nu.new host styles0))) page.

(** [init()] on the elements of class [nut], in document order. *)
Definition init (t : nat) (els : list (nat * HTMLElement))
    (page : NuResizeObserver.t) : NuResizeObserver.t :=
  foldl (fun page el => nut t el.1 el.2 None page) page els.

End Attach.

(** What happens to a debounced function: it is called, or time passes. *)
Inductive happening : Type :=
  | Called
  | Elapsed (t : nat).

Definition happen {S : Type} (func : S -> S) (wait : nat) (d : debounced S) (e : happening)
    : debounced S :=
  match e with
  | Called => call wait d
  | Elapsed t => elapse func t d
  end.

#[global] Instance happening_eq_dec : EqDecision happening.
Proof. solve_decision. Defined.

(** A debounced function in order: either no timer is pending and the
    closure holds no timer, or one timer is pending, the closure holds it,
    and it is due no earlier than now and no later than [wait] from now. *)
Definition orderly {S : Type} (wait : nat) (d : debounced S) : Prop :=
  match Timer.pending (timers d) with
  | [] => ∀ i, timeout d ≠ Timer.id i
  | [(i, due)] =>
      timeout d = Timer.id i
      ∧ (Timer.now (timers d) ≤ due ≤ Timer.now (timers d) + wait)%nat
  | _ => False
  end.

(** The drawing state a call was made in, and the call with another fill
    style. *)
Definition drawn_in (o : Bitmap.op) : Bitmap.state :=
  match o with
  | Bitmap.FillRect st _ _ _ _ => st
  | Bitmap.FillText st _ _ _ => st
  end.

Definition filled_with (v : string) (o : Bitmap.op) : Bitmap.op :=
  let recolour st :=
    {| Bitmap.fillStyle := v;
       Bitmap.textAlign := Bitmap.textAlign st;
       Bitmap.font := Bitmap.font st;
       Bitmap.transform := Bitmap.transform st |} in
  match o with
  | Bitmap.FillRect st x y w h => Bitmap.FillRect (recolour st) x y w h
  | Bitmap.FillText st text x y => Bitmap.FillText (recolour st) text x y
  end.

(** * Properties *)

(** ** Change detector *)

Section ChangeDetector.
Import StyleMutation.

Lemma loose_eq_refl v : loose_eq v v = true.
Proof. destruct v; simpl; try done. by rewrite bool_decide_eq_true. Qed.

Lemma loose_ne_str v p : loose_ne (str v) p = false ↔ p = str v.
Proof.
  unfold loose_ne. destruct p as [| |s]; simpl; split; try done.
  - intros E. apply negb_false_iff, bool_decide_eq_true in E. by subst.
  - intros [= ->]. apply negb_false_iff. by rewrite bool_decide_eq_true.
Qed.

Variable read : string -> value.

Lemma diff_flag keys b m :
  (foldl (diff_step read) (b, m) keys).1
  = b || existsb (fun k => loose_ne (read k) (Map_get m k)) keys.
Proof.
  revert b m. induction keys as [|k ks IH]; intros b m; simpl.
  - by rewrite orb_false_r.
  - unfold diff_step at 2. simpl.
    destruct (loose_ne (read k) (Map_get m k)) eqn:E; rewrite IH; simpl.
    + by rewrite orb_true_r.
    + done.
Qed.

Lemma diff_quiet keys b m :
  (∀ k, k ∈ keys → loose_ne (read k) (Map_get m k) = false) →
  foldl (diff_step read) (b, m) keys = (b, m).
Proof.
  induction keys as [|k ks IH]; intros Hq; simpl; [done|].
  unfold diff_step at 2. simpl.
  rewrite (Hq k) by left. apply IH. intros k' Hk'. apply Hq. by right.
Qed.

Lemma diff_other keys b m k :
  k ∉ keys → (foldl (diff_step read) (b, m) keys).2 !! k = m !! k.
Proof.
  revert b m. induction keys as [|k0 ks IH]; intros b m Hk; simpl; [done|].
  apply not_elem_of_cons in Hk as [Hne Hk].
  destruct (diff_step read (b, m) k0) as [b' m'] eqn:E.
  rewrite IH by done. unfold diff_step in E. simpl in E.
  destruct (loose_ne _ _); simplify_eq; [|done].
  unfold Map_set. by rewrite lookup_insert_ne.
Qed.

Lemma diff_seen keys b m k :
  k ∈ keys → loose_eq (read k) (Map_get (foldl (diff_step read) (b, m) keys).2 k) = true.
Proof.
  revert b m. induction keys as [|k0 ks IH]; intros b m Hk; simpl.
  - by apply elem_of_nil in Hk.
  - destruct (diff_step read (b, m) k0) as [b' m'] eqn:E.
    destruct (decide (k ∈ ks)) as [Hin|Hout]; [by apply IH|].
    apply elem_of_cons in Hk as [->|]; [|done].
    unfold Map_get at 1. rewrite diff_other by done.
    unfold diff_step in E. simpl in E.
    destruct (loose_ne (read k0) (Map_get m k0)) eqn:E'; simplify_eq.
    + unfold Map_set. rewrite lookup_insert_eq. simpl. apply loose_eq_refl.
    + by apply negb_false_iff in E'.
Qed.

Lemma set_seen keys m k :
  k ∈ keys → foldl (fun m p => Map_set p (read p) m) m keys !! k = Some (read k).
Proof.
  revert m. induction keys as [|k0 ks IH]; intros m Hk; simpl.
  - by apply elem_of_nil in Hk.
  - destruct (decide (k ∈ ks)) as [Hin|Hout]; [by apply IH|].
    apply elem_of_cons in Hk as [->|]; [|done].
    clear IH. revert m. induction ks as [|k1 ks IH]; intros m; simpl.
    + unfold Map_set. by rewrite lookup_insert_eq.
    + apply not_elem_of_cons in Hout as [Hne Hout].
      unfold Map_set at 2 3. rewrite insert_insert_ne by done.
      by apply IH.
Qed.

End ChangeDetector.

Lemma mutationStyleProps_five :
  mutationStyleProps = ["paddingTop"; "paddingRight"; "lineHeight"; "fontSize"; "fontFamily"].
Proof. reflexivity. Qed.

Lemma styleDiff_ext style1 style2 this :
  (∀ p, p ∈ mutationStyleProps → style1 p = style2 p) →
  StyleMutation.styleDiff style1 this = StyleMutation.styleDiff style2 this.
Proof.
  intros Hagree. unfold StyleMutation.styleDiff.
  assert (E : ∀ keys acc, (∀ p, p ∈ keys → style1 p = style2 p) →
            foldl (StyleMutation.diff_step (fun prop => str (style1 prop))) acc keys
            = foldl (StyleMutation.diff_step (fun prop => str (style2 prop))) acc keys).
  { induction keys as [|k ks IH]; intros acc Hk; simpl; [done|].
    unfold StyleMutation.diff_step at 2 4. rewrite (Hk k) by left.
    apply IH. intros p Hp. apply Hk. by right. }
  by rewrite E.
Qed.

Lemma styleDiff_after_set style host this :
  StyleMutation.styleDiff style (StyleMutation.set style host this)
  = (false, StyleMutation.set style host this).
Proof.
  unfold StyleMutation.styleDiff, StyleMutation.set.
  cbn [fst snd StyleMutation.prevStyle StyleMutation.prevData].
  rewrite diff_quiet; [done|].
  intros k Hk. apply loose_ne_str. unfold Map_get.
  by rewrite (set_seen (fun p => str (style p))).
Qed.

Lemma styleDiff_true_iff style this :
  (StyleMutation.styleDiff style this).1 = true
  ↔ ∃ p, p ∈ mutationStyleProps
         ∧ loose_ne (str (style p)) (Map_get (StyleMutation.prevStyle this) p) = true.
Proof.
  unfold StyleMutation.styleDiff. cbn [fst snd]. rewrite diff_flag.
  rewrite orb_false_l, existsb_exists. split; intros (p & Hp & E); exists p; split; try done.
  - by apply list_elem_of_In.
  - by apply list_elem_of_In.
Qed.

Lemma styleDiff_snapshot style this p :
  p ∈ mutationStyleProps →
  Map_get (StyleMutation.prevStyle (StyleMutation.styleDiff style this).2) p = str (style p).
Proof.
  intros Hp. unfold StyleMutation.styleDiff. cbn [fst snd StyleMutation.prevStyle].
  apply loose_ne_str. unfold loose_ne.
  by rewrite (diff_seen (fun prop => str (style prop))).
Qed.

Lemma styleDiff_twice style this :
  (StyleMutation.styleDiff style (StyleMutation.styleDiff style this).2).1 = false.
Proof.
  apply not_true_is_false. intros (p & Hp & Hne)%styleDiff_true_iff.
  rewrite styleDiff_snapshot in Hne by done.
  unfold loose_ne in Hne. by rewrite loose_eq_refl in Hne.
Qed.

(** C6.  [styleDiff] looks at the five tracked properties and at nothing
    else; it answers [true] exactly when one of them is loosely unequal to
    the snapshot, and leaves the snapshot equal to the style on all five.
    Right after [set] it answers [false] and changes nothing; when a
    tracked property has changed since [set] it answers [true], and
    [false] when asked again; after another [set] with the new style it
    answers [false] as well. *)
Theorem styleDiff_change_detector :
  mutationStyleProps
    = ["paddingTop"; "paddingRight"; "lineHeight"; "fontSize"; "fontFamily"]
  ∧ (∀ style1 style2 this,
       (∀ p, p ∈ mutationStyleProps → style1 p = style2 p) →
       StyleMutation.styleDiff style1 this = StyleMutation.styleDiff style2 this)
  ∧ (∀ style this,
       (StyleMutation.styleDiff style this).1 = true
       ↔ ∃ p, p ∈ mutationStyleProps
              ∧ loose_ne (str (style p)) (Map_get (StyleMutation.prevStyle this) p) = true)
  ∧ (∀ style this p,
       p ∈ mutationStyleProps →
       Map_get (StyleMutation.prevStyle (StyleMutation.styleDiff style this).2) p
       = str (style p))
  ∧ (∀ style host this,
       StyleMutation.styleDiff style (StyleMutation.set style host this)
       = (false, StyleMutation.set style host this))
  ∧ (∀ style style' host this,
       (∃ p, p ∈ mutationStyleProps ∧ style' p ≠ style p) →
       (StyleMutation.styleDiff style' (StyleMutation.set style host this)).1 = true)
  ∧ (∀ style this,
       (StyleMutation.styleDiff style (StyleMutation.styleDiff style this).2).1 = false)
  ∧ (∀ style style' host host' this,
       StyleMutation.styleDiff style'
         (StyleMutation.set style' host' (StyleMutation.set style host this))
       = (false, StyleMutation.set style' host' (StyleMutation.set style host this))).
Proof.
  split; [reflexivity|].
  split; [apply styleDiff_ext|].
  split; [apply styleDiff_true_iff|].
  split; [apply styleDiff_snapshot|].
  split; [apply styleDiff_after_set|].
  split; [|split; [apply styleDiff_twice|intros; apply styleDiff_after_set]].
  intros style style' host this (p & Hp & Hne).
  apply styleDiff_true_iff. exists p. split; [done|].
  unfold StyleMutation.set. cbn [StyleMutation.prevStyle].
  unfold Map_get. rewrite (set_seen (fun p => str (style p))) by done.
  cbn [default loose_ne loose_eq]. by apply negb_true_iff, bool_decide_eq_false.
Qed.

(** ** The render pass *)

Lemma Qltb_index (i : N) (q : Q) :
  Qltb (N2Q i) q = (Z.of_N i <? Qceiling q)%Z.
Proof.
  unfold Qltb, N2Q.
  destruct (Z.ltb_spec (Z.of_N i) (Qceiling q)) as [Hlt|Hge].
  - apply negb_true_iff. destruct (Qle_bool q (inject_Z (Z.of_N i))) eqn:E; [|done].
    apply Qle_bool_iff in E.
    assert (Hc := Qceiling_lt q).
    assert (Hi : (inject_Z (Qceiling q - 1) < inject_Z (Z.of_N i))%Q)
      by (eapply Qlt_le_trans; eassumption).
    rewrite <- Zlt_Qlt in Hi. lia.
  - apply negb_false_iff, Qle_bool_iff.
    eapply Qle_trans; [apply Qle_ceiling|]. by rewrite <- Zle_Qle.
Qed.

Section Render.
Context `{Browser}.
Import Nu.

(** [drawLine] adds one numeral and touches nothing else. *)
Lemma drawLine_paints (m : TMeasure) (i : N) (lh fs : Q) (this : t) :
  drawLine m i lh fs this
  = with_canvas
      (Canvas.paint
         (Bitmap.FillText (Canvas.ctx (canvas this)) (N_toString (i + 1))
            (inject_Z (Canvas.width (canvas this)) - N2Q (nuPadding m) * dpr this * 2)%Q
            (N2Q (paddingTop m) * dpr this + lh * N2Q i + (lh + fs) / 2)%Q))
      this.
Proof. reflexivity. Qed.

Lemma draw_lines_finite (m : TMeasure) (q lh fs : Q) :
  ∀ fuel (index : N) (this : t),
    draw_lines fuel m index (finite q) lh fs this
    = let n := Z.to_nat (Qceiling q - Z.of_N index) in
      if (n <? fuel)%nat
      then Some (foldl (fun that i => drawLine m i lh fs that) this
                       (N.of_nat <$> seq (N.to_nat index) n))
      else None.
Proof.
  induction fuel as [|fuel IH]; intros index this; cbn zeta.
  - cbn [draw_lines]. destruct (_ <? 0)%nat eqn:E; [apply Nat.ltb_lt in E; lia|done].
  - cbn [draw_lines js_lt]. rewrite Qltb_index.
    destruct (Z.ltb_spec (Z.of_N index) (Qceiling q)) as [Hlt|Hge].
    + rewrite IH. cbn zeta.
      replace (Z.to_nat (Qceiling q - Z.of_N index))
        with (Datatypes.S (Z.to_nat (Qceiling q - Z.of_N (index + 1)))) by lia.
      change (Datatypes.S ?a <? Datatypes.S ?b)%nat with (a <? b)%nat.
      destruct (_ <? fuel)%nat; [|done].
      cbn [seq fmap list_fmap foldl].
      replace (N.to_nat (index + 1)) with (Datatypes.S (N.to_nat index)) by lia.
      by rewrite N2Nat.id.
    + replace (Z.to_nat (Qceiling q - Z.of_N index)) with O by lia.
      done.
Qed.

Lemma draw_lines_infinite (m : TMeasure) (lh fs : Q) :
  ∀ fuel (index : N) (this : t),
    draw_lines fuel m index pos_infinity lh fs this = None.
Proof. induction fuel as [|fuel IH]; intros; cbn [draw_lines js_lt]; [done|apply IH]. Qed.

Lemma draw_lines_none (m : TMeasure) (lines : number) (lh fs : Q) fuel index this :
  lines = neg_infinity ∨ lines = NaN →
  draw_lines fuel m index lines lh fs this = if (0 <? fuel)%nat then Some this else None.
Proof. intros [-> | ->]; by destruct fuel. Qed.

(** The loop, whatever its bound. *)
Lemma draw_lines_turns (m : TMeasure) (lines : number) (lh fs : Q) fuel (this : t) :
  draw_lines fuel m 0 lines lh fs this
  = match turns lines with
    | Some n =>
        if (n <? fuel)%nat
        then Some (foldl (fun that i => drawLine m i lh fs that) this (indices n))
        else None
    | None => None
    end.
Proof.
  destruct lines as [q| | |]; cbn [turns].
  - rewrite draw_lines_finite. cbn zeta. by rewrite Z.sub_0_r.
  - apply draw_lines_infinite.
  - by rewrite draw_lines_none by auto.
  - by rewrite draw_lines_none by auto.
Qed.

Lemma foldl_drawLine (m : TMeasure) (lh fs : Q) (idx : list N) :
  ∀ this : t,
    foldl (fun that i => drawLine m i lh fs that) this idx
    = with_canvas (fun c =>
        {| Canvas.bitmap :=
             {| Bitmap.width := Canvas.width c;
                Bitmap.height := Canvas.height c;
                Bitmap.ops :=
                  Bitmap.ops (Canvas.bitmap c)
                  ++ ((fun i =>
                         Bitmap.FillText (Canvas.ctx (canvas this)) (N_toString (i + 1))
                           (inject_Z (Canvas.width (canvas this))
                            - N2Q (nuPadding m) * dpr this * 2)%Q
                           (N2Q (paddingTop m) * dpr this + lh * N2Q i + (lh + fs) / 2)%Q)
                      <$> idx) |};
           Canvas.ctx := Canvas.ctx c |}) this.
Proof.
  induction idx as [|i idx IH]; intros [host sm [[w h ops] st] sty ratio].
  - unfold with_canvas. cbn. by rewrite app_nil_r.
  - cbn [foldl]. rewrite IH. unfold with_canvas. cbn. by rewrite <- app_assoc.
Qed.

(** [handleRender] in closed form: it returns when, and only when, the
    loop bound allows and the fuel covers the turns of the loop, and then
    it leaves [pass]. *)
Lemma handleRender_run (fuel : nat) (this : t) :
  handleRender fuel this
  = match turns (line_count (scrollHeight (el this)) (measured this)) with
    | Some n => if (n <? fuel)%nat then Some (pass n this) else None
    | None => None
    end.
Proof.
  unfold handleRender.
  cbv beta iota zeta delta [ensureStyles].
  rewrite draw_lines_turns.
  destruct this as [host sm cv sty ratio].
  destruct sty as [over|];
    (destruct (turns _) as [n|]; [|done]; destruct (n <? fuel)%nat; [|done];
     rewrite foldl_drawLine; reflexivity).
Qed.

End Render.

(** ** Counting the lines *)

Lemma ceil_div_spec (s l : N) :
  (0 < l)%N →
  (Z.of_N l * (Z.of_N (ceil_div s l) - 1) < Z.of_N s ≤ Z.of_N l * Z.of_N (ceil_div s l))%Z.
Proof.
  intros Hl. unfold ceil_div.
  rewrite N2Z.inj_div, N2Z.inj_sub, N2Z.inj_add by lia.
  change (Z.of_N 1) with 1%Z.
  set (a := Z.of_N s). set (b := Z.of_N l).
  assert (Hb : (0 < b)%Z) by lia.
  pose proof (Z.div_mod (a + b - 1) b ltac:(lia)) as Hdm.
  pose proof (Z.mod_pos_bound (a + b - 1) b Hb) as Hm.
  nia.
Qed.

Lemma Qceiling_div (s l : N) :
  (0 < l)%N → Qceiling (N2Q s / N2Q l) = Z.of_N (ceil_div s l).
Proof.
  intros Hl. pose proof (ceil_div_spec s l Hl) as Hc.
  destruct l as [|p]; [lia|].
  unfold N2Q, Qceiling, Qfloor, Qdiv, Qinv, Qmult, Qopp, inject_Z. cbn.
  rewrite Z.mul_1_r, Pos.mul_1_l.
  set (a := Z.of_N s) in *. set (n := Z.of_N (ceil_div s (N.pos p))) in *.
  change (Z.of_N (N.pos p)) with (Z.pos p) in Hc.
  pose proof (Z.div_mod (- a) (Z.pos p) ltac:(lia)) as Hdm.
  pose proof (Z.mod_pos_bound (- a) (Z.pos p) ltac:(lia)) as Hm.
  nia.
Qed.

Lemma N2Q_pos (l : N) : (0 < l)%N → Qeq_bool (N2Q l) 0 = false.
Proof. destruct l; [lia|done]. Qed.

Section Lines.
Context `{Browser}.
Import Nu.

Lemma turns_positive (s : N) (m : TMeasure) :
  (0 < lineHeight m)%N →
  turns (line_count s m) = Some (N.to_nat (ceil_div s (lineHeight m))).
Proof.
  intros Hl. unfold line_count, js_div. rewrite N2Q_pos by done.
  cbn [Math_ceil turns]. rewrite Qceiling_Z, Qceiling_div by done.
  f_equal. lia.
Qed.

(** A line height of zero: the quotient is [Infinity] for a positive
    scroll height and [NaN] for zero. *)
Lemma line_count_zero (s : N) (m : TMeasure) :
  lineHeight m = 0%N →
  line_count s m = if bool_decide (s = 0%N) then NaN else pos_infinity.
Proof.
  intros Hl. unfold line_count, js_div. rewrite Hl. cbn [N2Q Z.of_N].
  change (Qeq_bool (inject_Z 0) 0) with true. cbn match.
  destruct s as [|p]; [done|]. rewrite bool_decide_eq_false_2 by done. done.
Qed.

Lemma numerals_raster (n : nat) (this : t) :
  numerals (raster n this) = N_toString <$> (N.of_nat <$> seq 1 n).
Proof.
  unfold numerals, raster, indices. cbn [Bitmap.ops omap list_omap].
  rewrite <- fmap_S_seq, <- !list_fmap_compose.
  induction (seq 0 n) as [|k ks IH]; [done|].
  cbn [fmap list_fmap omap list_omap compose numeral_op]. cbn [compose] in IH.
  f_equal; [|exact IH]. f_equal. lia.
Qed.

End Lines.

Lemma N_toString_inj : Inj (=) (=) N_toString.
Proof.
  intros a b E. unfold N_toString in E.
  assert (Hnn : ∀ n, N.to_uint n ≠ Decimal.Nil).
  { intros [|p]; [done|]. apply DecimalPos.Unsigned.to_uint_nonnil. }
  apply (f_equal NilZero.uint_of_string) in E.
  rewrite !NilZero.usu in E by apply Hnn.
  injection E as E. by apply DecimalN.Unsigned.to_uint_inj.
Qed.

Section Pass.
Context `{Browser}.
Import Nu.

Lemma handleRender_inv (fuel : nat) (this that : t) :
  handleRender fuel this = Some that →
  ∃ n, turns (line_count (scrollHeight (el this)) (measured this)) = Some n
       ∧ (n < fuel)%nat ∧ that = pass n this.
Proof.
  rewrite handleRender_run. destruct (turns _) as [n|]; [|done].
  destruct (Nat.ltb_spec n fuel); [|done]. intros [= <-]. by exists n.
Qed.

(** What a pass computes depends on the instance through the host's
    attributes, computed style and scroll height, the values given at
    [attach] and the pixel ratio, and through nothing else. *)
Lemma raster_observed (n : nat) (this other : t) :
  attributes (el other) = attributes (el this) →
  computedStyle (el other) = computedStyle (el this) →
  scrollHeight (el other) = scrollHeight (el this) →
  default empty_styles (styles other) = default empty_styles (styles this) →
  dpr other = dpr this →
  measured other = measured this ∧ raster n other = raster n this.
Proof.
  intros Ha Hc Hs Ho Hd.
  assert (Hg : ∀ a d, getAttr a d other = getAttr a d this).
  { intros a d. unfold getAttr, getAttribute. by rewrite Ha. }
  assert (Hg' : ∀ a d, getAttr a d
              (match styles other with
               | Some _ => other | None => with_styles (Some empty_styles) other end)
            = getAttr a d
              (match styles this with
               | Some _ => this | None => with_styles (Some empty_styles) this end)).
  { intros a d. specialize (Hg a d). by destruct (styles other), (styles this). }
  assert (Hd' : ∀ x, default empty_styles (styles
              (match styles x with
               | Some _ => x | None => with_styles (Some empty_styles) x end))
              = default empty_styles (styles x)).
  { intros x. by destruct (styles x) eqn:E; [rewrite E|]. }
  assert (He : (ensureStyles other).1 = (ensureStyles this).1).
  { unfold ensureStyles. cbn [fst]. by rewrite !Hg', !Hd', Ho. }
  assert (Hm : measured other = measured this).
  { unfold measured, getComputedStyle. by rewrite He, Hc. }
  split; [done|].
  unfold raster, numeral_op, numeral_state, background_state,
    raster_width, raster_height.
  by rewrite Hm, He, Hc, Hs, Hd.
Qed.

End Pass.

(** ** The numerals of a pass *)

Lemma handleRender_positive `{Browser} (this : Nu.t) (fuel : nat) :
  (0 < lineHeight (Nu.measured this))%N →
  (N.to_nat (ceil_div (scrollHeight (Nu.el this)) (lineHeight (Nu.measured this)))
   < fuel)%nat →
  Nu.handleRender fuel this
  = Some (Nu.pass
            (N.to_nat (ceil_div (scrollHeight (Nu.el this)) (lineHeight (Nu.measured this))))
            this).
Proof.
  intros Hl Hfuel. rewrite handleRender_run, turns_positive by done.
  apply Nat.ltb_lt in Hfuel. by rewrite Hfuel.
Qed.

(** C1.  For a host of scroll height [S] whose measured line height [L] is
    positive, [handleRender] returns, and the numerals it has drawn are the
    decimal strings of 1, 2, ..., n in this order, where n is the ceiling
    of S / L (the one n with L * (n - 1) < S <= L * n): n numerals, none
    missing, none twice. *)
Theorem handleRender_numerals `{Browser} (this : Nu.t) :
  (0 < lineHeight (Nu.measured this))%N →
  (Z.of_N (lineHeight (Nu.measured this))
     * (Z.of_N (ceil_div (scrollHeight (Nu.el this)) (lineHeight (Nu.measured this))) - 1)
   < Z.of_N (scrollHeight (Nu.el this))
   ≤ Z.of_N (lineHeight (Nu.measured this))
     * Z.of_N (ceil_div (scrollHeight (Nu.el this)) (lineHeight (Nu.measured this))))%Z
  ∧ ∃ that,
      (∀ fuel,
         (N.to_nat (ceil_div (scrollHeight (Nu.el this)) (lineHeight (Nu.measured this)))
          < fuel)%nat →
         Nu.handleRender fuel this = Some that)
      ∧ numerals (Canvas.bitmap (Nu.canvas that))
        = N_toString
            <$> (N.of_nat
                   <$> seq 1 (N.to_nat (ceil_div (scrollHeight (Nu.el this))
                                                 (lineHeight (Nu.measured this)))))
      ∧ length (numerals (Canvas.bitmap (Nu.canvas that)))
        = N.to_nat (ceil_div (scrollHeight (Nu.el this)) (lineHeight (Nu.measured this)))
      ∧ NoDup (numerals (Canvas.bitmap (Nu.canvas that))).
Proof.
  intros Hl. split; [by apply ceil_div_spec|].
  set (n := N.to_nat (ceil_div _ _)).
  exists (Nu.pass n this). split; [|split; [|split]].
  - intros fuel Hfuel. by apply handleRender_positive.
  - apply numerals_raster.
  - change (Canvas.bitmap (Nu.canvas (Nu.pass n this))) with (Nu.raster n this).
    by rewrite numerals_raster, !length_fmap, length_seq.
  - change (Canvas.bitmap (Nu.canvas (Nu.pass n this))) with (Nu.raster n this).
    rewrite numerals_raster.
    apply (@NoDup_fmap_2 _ _ _ N_toString_inj).
    apply (@NoDup_fmap_2 _ _ _ Nat2N.inj). apply NoDup_seq.
Qed.

(** C5.  A pass that returns has painted the background and then, for each
    index 0, 1, ..., n - 1 in turn, the numeral index + 1, end-aligned, at
    x = canvas.width - nuPadding * dpr * 2 and
    y = paddingTop * dpr + lineHeight * index + (lineHeight + fontSize) / 2,
    where lineHeight and fontSize are the arguments [drawLine] is called
    with, the measured line height and font size times dpr.  Half a font
    size above that baseline is the middle of line [index]. *)
Theorem drawLine_position `{Browser} (fuel : nat) (this that : Nu.t) :
  Nu.handleRender fuel this = Some that →
  ∃ (n : nat) (background : Bitmap.op) (st : Bitmap.state),
    let m := Nu.measured this in
    let lineHeight' := (N2Q (lineHeight m) * Nu.dpr this)%Q in
    let fontSize' := (N2Q (fontSize m) * Nu.dpr this)%Q in
    let x := (inject_Z (Canvas.width (Nu.canvas that))
              - N2Q (nuPadding m) * Nu.dpr this * 2)%Q in
    let y := fun index : N =>
               (N2Q (paddingTop m) * Nu.dpr this + lineHeight' * N2Q index
                + (lineHeight' + fontSize') / 2)%Q in
    Nu.turns (Nu.line_count (scrollHeight (Nu.el this)) m) = Some n
    ∧ Bitmap.ops (Canvas.bitmap (Nu.canvas that))
      = background
        :: ((fun index => Bitmap.FillText st (N_toString (index + 1)) x (y index))
            <$> (N.of_nat <$> seq 0 n))
    ∧ Bitmap.textAlign st = "end"
    ∧ (∀ index : N,
         y index - fontSize' / 2
         == N2Q (paddingTop m) * Nu.dpr this + lineHeight' * N2Q index
            + lineHeight' / 2)%Q.
Proof.
  intros Hrun. apply handleRender_inv in Hrun as (n & Hn & _ & ->).
  exists n, (Bitmap.FillRect (Nu.background_state this) 0 0
               (inject_Z (Nu.raster_width this)) (inject_Z (Nu.raster_height this))),
         (Nu.numeral_state this).
  cbv zeta. split; [done|]. split; [reflexivity|]. split; [reflexivity|].
  intros index. field.
Qed.

(** ** What a pass writes to the host *)

Lemma declared_setStyle (m : TMeasure) (dataURL : string) :
  declared "padding-left" (Nu.setStyle_css m dataURL)
    = [N_toString (nuWidth m + paddingRight m) +:+ "px"]
  ∧ declared "box-sizing" (Nu.setStyle_css m dataURL) = ["border-box"]
  ∧ declared "background-repeat" (Nu.setStyle_css m dataURL) = ["no-repeat"]
  ∧ declared "background-attachment" (Nu.setStyle_css m dataURL) = ["local"]
  ∧ declared "background-size" (Nu.setStyle_css m dataURL)
    = [N_toString (nuWidth m) +:+ "px auto"]
  ∧ declared "background-image" (Nu.setStyle_css m dataURL)
    = ["url(" +:+ dataURL +:+ ")"].
Proof. repeat split; reflexivity. Qed.

Lemma handleRender_cssText `{Browser} (fuel : nat) (this that : Nu.t) :
  Nu.handleRender fuel this = Some that →
  cssText (Nu.el that)
  = cssText (Nu.el this)
    +:+ String.concat ";"
          (Nu.setStyle_css (Nu.measured this) (Canvas.toDataURL (Nu.canvas that))).
Proof. intros Hrun. by apply handleRender_inv in Hrun as (n & _ & _ & ->). Qed.

(** C7.  A pass that returns has appended to the host's inline style a
    list of declarations in which [padding-left] is declared once, as the
    measured gutter width plus the measured right padding of the host, in
    pixels. *)
Theorem setStyle_padding_left `{Browser} (fuel : nat) (this that : Nu.t) :
  Nu.handleRender fuel this = Some that →
  ∃ css,
    cssText (Nu.el that) = cssText (Nu.el this) +:+ String.concat ";" css
    ∧ declared "padding-left" css
      = [N_toString (nuWidth (Nu.measured this) + paddingRight (Nu.measured this))
         +:+ "px"].
Proof.
  intros Hrun.
  exists (Nu.setStyle_css (Nu.measured this) (Canvas.toDataURL (Nu.canvas that))).
  split; [by eapply handleRender_cssText|]. apply declared_setStyle.
Qed.

(** C4, as the code has it.  A pass that returns has appended declarations
    that make the exported raster the host's background image, not
    repeated, attached to the host's content ([background-attachment:
    local], so that it scrolls with the text), [background-size] the
    measured gutter width in pixels by [auto], and [box-sizing:
    border-box]. *)
Theorem setStyle_background `{Browser} (fuel : nat) (this that : Nu.t) :
  Nu.handleRender fuel this = Some that →
  ∃ css,
    cssText (Nu.el that) = cssText (Nu.el this) +:+ String.concat ";" css
    ∧ declared "background-image" css
      = ["url(" +:+ Canvas.toDataURL (Nu.canvas that) +:+ ")"]
    ∧ declared "background-repeat" css = ["no-repeat"]
    ∧ declared "background-attachment" css = ["local"]
    ∧ declared "background-size" css
      = [N_toString (nuWidth (Nu.measured this)) +:+ "px auto"]
    ∧ declared "box-sizing" css = ["border-box"].
Proof.
  intros Hrun.
  exists (Nu.setStyle_css (Nu.measured this) (Canvas.toDataURL (Nu.canvas that))).
  split; [by eapply handleRender_cssText|].
  repeat split; apply declared_setStyle.
Qed.

(** ** Configuration *)

Lemma getAttr_resolve `{Browser} (attr : EDataAttr) (name fallback : string) (this : Nu.t) :
  assoc_get attr dataAttrsMap = Some name →
  Some (Nu.getAttr attr fallback this) = Nu.resolve None name fallback this.
Proof.
  intros Hname. unfold Nu.getAttr, Nu.resolve, getAttribute. rewrite Hname.
  change (DOMString (Some name)) with name.
  destruct (attributes (Nu.el this) !! name); reflexivity.
Qed.

Lemma spread_resolve `{Browser} (attr : EDataAttr) (given : option (option string))
    (name fallback : string) (this : Nu.t) :
  assoc_get attr dataAttrsMap = Some name →
  Nu.spread (Nu.getAttr attr fallback this) given
  = Some (Nu.resolve given name fallback this).
Proof.
  intros Hname. destruct given as [v|]; [reflexivity|].
  cbn [Nu.spread]. by rewrite (getAttr_resolve attr name fallback this Hname).
Qed.

(** C8.  [ensureStyles] reads the four data attributes of the host as it is
    when called.  The result has all four properties, and each holds what
    the object given at [attach] holds in it if that object has the
    property (a string, or [undefined] when the property was given as
    such), else the attribute if it is present and not empty, else the
    default (64px, 8px, #666, #f4f4f4).  It stores nothing of what it has
    read, and a pass that returns has measured with this result and
    painted with its colours (the background in the resolved background
    colour if the canvas takes it as a colour and in the canvas's initial
    black if not, the numerals in the resolved numeral colour if the
    canvas takes it and in the fill style of the background if not), so
    that the next pass resolves the attributes anew. *)
Theorem ensureStyles_resolution `{Browser} (this : Nu.t) :
  let given := default Nu.empty_styles (Nu.styles this) in
  (Nu.ensureStyles this).1
  = {| numberWidth := Some (Nu.resolve (numberWidth given) "data-nut-width" "64px" this);
       numberPadding :=
         Some (Nu.resolve (numberPadding given) "data-nut-padding" "8px" this);
       numberColor := Some (Nu.resolve (numberColor given) "data-nut-color" "#666" this);
       numberBgColor :=
         Some (Nu.resolve (numberBgColor given) "data-nut-bg-color" "#f4f4f4" this) |}
  ∧ Nu.el (Nu.ensureStyles this).2 = Nu.el this
  ∧ Nu.styles (Nu.ensureStyles this).2 = Some given
  ∧ (∀ fuel that,
       Nu.handleRender fuel this = Some that →
       Nu.styles that = Some given
       ∧ Nu.measured this
         = getMeasure (computedStyle (Nu.el this)) (Nu.ensureStyles this).1
       ∧ ∃ n index_ops,
           Bitmap.ops (Canvas.bitmap (Nu.canvas that))
           = Bitmap.FillRect
               {| Bitmap.fillStyle :=
                    Nu.fill (Nu.resolve (numberBgColor given) "data-nut-bg-color"
                                        "#f4f4f4" this) "#000000";
                  Bitmap.textAlign := "start";
                  Bitmap.font := "10px sans-serif";
                  Bitmap.transform := (1%Q, 1%Q) |}
               0 0 (inject_Z (Canvas.width (Nu.canvas that)))
               (inject_Z (Canvas.height (Nu.canvas that)))
             :: index_ops
           ∧ length index_ops = n
           ∧ Forall (fun o => ∃ st text x y,
                       o = Bitmap.FillText st text x y
                       ∧ Bitmap.fillStyle st
                         = Nu.fill (Nu.resolve (numberColor given) "data-nut-color"
                                               "#666" this)
                             (Nu.fill (Nu.resolve (numberBgColor given)
                                         "data-nut-bg-color" "#f4f4f4" this)
                                      "#000000"))
                    index_ops).
Proof.
  cbv zeta.
  assert (E : (Nu.ensureStyles this).1
    = {| numberWidth :=
           Some (Nu.resolve (numberWidth (default Nu.empty_styles (Nu.styles this)))
                            "data-nut-width" "64px" this);
         numberPadding :=
           Some (Nu.resolve (numberPadding (default Nu.empty_styles (Nu.styles this)))
                            "data-nut-padding" "8px" this);
         numberColor :=
           Some (Nu.resolve (numberColor (default Nu.empty_styles (Nu.styles this)))
                            "data-nut-color" "#666" this);
         numberBgColor :=
           Some (Nu.resolve (numberBgColor (default Nu.empty_styles (Nu.styles this)))
                            "data-nut-bg-color" "#f4f4f4" this) |}).
  { destruct this as [host sm cv [over|] ratio]; unfold Nu.ensureStyles;
      cbn [fst Nu.styles Nu.with_styles default];
      rewrite (spread_resolve Width _ "data-nut-width" _ _ eq_refl),
        (spread_resolve Padding _ "data-nut-padding" _ _ eq_refl),
        (spread_resolve Color _ "data-nut-color" _ _ eq_refl),
        (spread_resolve BgColor _ "data-nut-bg-color" _ _ eq_refl); reflexivity. }
  split; [exact E|].
  split; [destruct this as [host sm cv [over|] ratio]; reflexivity|].
  split; [destruct this as [host sm cv [over|] ratio]; reflexivity|].
  intros fuel that Hrun. apply handleRender_inv in Hrun as (n & _ & _ & ->).
  split; [reflexivity|]. split; [reflexivity|].
  exists n, (Nu.numeral_op this <$> Nu.indices n).
  split; [|split].
  - cbn [Nu.pass Nu.canvas Canvas.bitmap Nu.raster Bitmap.ops]. f_equal.
    unfold Nu.background_state. by rewrite E.
  - unfold Nu.indices. by rewrite !length_fmap, length_seq.
  - apply Forall_fmap, Forall_forall. intros i _. cbn [compose].
    eexists _, _, _, _. split; [reflexivity|].
    unfold Nu.numeral_state. cbn [Bitmap.fillStyle]. by rewrite E.
Qed.

(** ** Rendering again *)

(** C9.  When a pass has returned and the body runs again on the instance
    it left, with the host's attributes, computed style and scroll height
    as they were (whatever has become of its inline style, of the canvas
    and of the change snapshot), the second pass returns too and its
    raster is the first one: the same bitmap, the same exported payload. *)
Theorem handleRender_idempotent `{Browser} (fuel : nat) (this that again : Nu.t) :
  Nu.handleRender fuel this = Some that →
  attributes (Nu.el again) = attributes (Nu.el that) →
  computedStyle (Nu.el again) = computedStyle (Nu.el that) →
  scrollHeight (Nu.el again) = scrollHeight (Nu.el that) →
  Nu.styles again = Nu.styles that →
  Nu.dpr again = Nu.dpr that →
  ∃ that',
    Nu.handleRender fuel again = Some that'
    ∧ Canvas.bitmap (Nu.canvas that') = Canvas.bitmap (Nu.canvas that)
    ∧ Canvas.toDataURL (Nu.canvas that') = Canvas.toDataURL (Nu.canvas that).
Proof.
  intros Hrun Ha Hc Hs Ho Hd.
  apply handleRender_inv in Hrun as (n & Hn & Hfuel & ->).
  cbn [Nu.pass Nu.el Nu.styles Nu.dpr attributes computedStyle scrollHeight] in *.
  assert (Ho' : default Nu.empty_styles (Nu.styles again)
                = default Nu.empty_styles (Nu.styles this)) by by rewrite Ho.
  destruct (raster_observed n this again Ha Hc Hs Ho' Hd) as [Hm Hr].
  exists (Nu.pass n again). split; [|split].
  - rewrite handleRender_run, Hm, Hs, Hn.
    by destruct (Nat.ltb_spec n fuel); [|lia].
  - exact Hr.
  - unfold Canvas.toDataURL. cbn [Nu.pass Nu.canvas Canvas.bitmap]. by rewrite Hr.
Qed.

(** ** Termination *)

(** C10.  [handleRender] returns exactly when the measured line height is
    positive or the scroll height is zero.  With a line height of zero and
    a positive scroll height the line count is [Infinity] and the loop is
    still running after any number of turns; with both zero the count is
    [NaN], the loop body never runs and the pass returns with no numeral
    drawn. *)
Theorem handleRender_termination `{Browser} (this : Nu.t) :
  ((∃ fuel that, Nu.handleRender fuel this = Some that)
   ↔ (0 < lineHeight (Nu.measured this))%N ∨ scrollHeight (Nu.el this) = 0%N)
  ∧ (lineHeight (Nu.measured this) = 0%N →
     (0 < scrollHeight (Nu.el this))%N →
     Nu.line_count (scrollHeight (Nu.el this)) (Nu.measured this) = pos_infinity
     ∧ ∀ fuel, Nu.handleRender fuel this = None)
  ∧ (lineHeight (Nu.measured this) = 0%N →
     scrollHeight (Nu.el this) = 0%N →
     Nu.line_count (scrollHeight (Nu.el this)) (Nu.measured this) = NaN
     ∧ ∃ that,
         (∀ fuel, (0 < fuel)%nat → Nu.handleRender fuel this = Some that)
         ∧ numerals (Canvas.bitmap (Nu.canvas that)) = []).
Proof.
  assert (Hinf : lineHeight (Nu.measured this) = 0%N →
                 (0 < scrollHeight (Nu.el this))%N →
                 Nu.line_count (scrollHeight (Nu.el this)) (Nu.measured this) = pos_infinity
                 ∧ ∀ fuel, Nu.handleRender fuel this = None).
  { intros Hl Hs.
    assert (E : Nu.line_count (scrollHeight (Nu.el this)) (Nu.measured this)
                = pos_infinity).
    { rewrite line_count_zero by done. rewrite bool_decide_eq_false_2; [done|lia]. }
    split; [done|]. intros fuel. by rewrite handleRender_run, E. }
  assert (Hnan : lineHeight (Nu.measured this) = 0%N →
                 scrollHeight (Nu.el this) = 0%N →
                 Nu.line_count (scrollHeight (Nu.el this)) (Nu.measured this) = NaN
                 ∧ ∃ that,
                     (∀ fuel, (0 < fuel)%nat → Nu.handleRender fuel this = Some that)
                     ∧ numerals (Canvas.bitmap (Nu.canvas that)) = []).
  { intros Hl Hs.
    assert (E : Nu.line_count (scrollHeight (Nu.el this)) (Nu.measured this) = NaN).
    { rewrite line_count_zero by done. by rewrite bool_decide_eq_true_2. }
    split; [done|]. exists (Nu.pass 0 this). split; [|reflexivity].
    intros fuel Hfuel. rewrite handleRender_run, E. cbn [Nu.turns].
    by destruct (Nat.ltb_spec 0 fuel); [|lia]. }
  split; [|by split].
  split.
  - intros (fuel & that & Hrun).
    destruct (N.eq_0_gt_0_cases (lineHeight (Nu.measured this))) as [Hl|Hl]; [|by left].
    destruct (N.eq_0_gt_0_cases (scrollHeight (Nu.el this))) as [Hs|Hs]; [by right|].
    destruct (Hinf Hl Hs) as [_ Hnever]. by rewrite Hnever in Hrun.
  - intros [Hl|Hs].
    + eexists _, _. apply (handleRender_positive this _ Hl), Nat.lt_succ_diag_r.
    + destruct (N.eq_0_gt_0_cases (lineHeight (Nu.measured this))) as [Hl|Hl].
      * destruct (Hnan Hl Hs) as (_ & that & Hrun & _).
        exists 1%nat, that. apply Hrun. lia.
      * eexists _, _. apply (handleRender_positive this _ Hl), Nat.lt_succ_diag_r.
Qed.

(** ** The probe *)


(** ** Debounce *)

Section DebounceFacts.
Context {S : Type} (func : S -> S) (wait : nat).

(** A call that finds no timer pending arms one. *)
Lemma call_idle (q : Timer.queue) (h : Timer.handle) (ctx : S) (log : list nat) :
  Timer.pending q = [] →
  h = Timer.unset ∨ h = Timer.cleared →
  call wait {| timers := q; timeout := h; context := ctx; executed := log |}
  = armed wait (Timer.nextId q) (Datatypes.S (Timer.nextId q)) (Timer.now q) ctx log.
Proof.
  intros Hp Hh. destruct q as [t nx p]. cbn in Hp. subst p.
  by destruct Hh as [-> | ->].
Qed.

(** A call before the pending timer is due cancels it and starts over. *)
Lemma call_early (i nx t0 t : nat) (ctx : S) (log : list nat) :
  (t0 ≤ t < t0 + wait)%nat →
  call wait (elapse func t (armed wait i nx t0 ctx log))
  = armed wait nx (Datatypes.S nx) t ctx log.
Proof.
  intros Ht. unfold elapse, armed, call. cbn [timers Timer.pending fire].
  destruct (Nat.leb_spec (t0 + wait) t) as [Hle|_]; [lia|].
  cbn [timers timeout context executed Timer.clearTimeout Timer.remove Timer.tick
       Timer.pending Timer.now Timer.nextId Timer.setTimeout].
  rewrite filter_cons_False by (cbn; tauto). rewrite filter_nil.
  cbn [app]. by rewrite Nat.max_r by lia.
Qed.

(** A call once the pending timer is due finds that it has run. *)
Lemma call_late (i nx t0 t : nat) (ctx : S) (log : list nat) :
  (t0 + wait ≤ t)%nat →
  call wait (elapse func t (armed wait i nx t0 ctx log))
  = armed wait nx (Datatypes.S nx) t (func ctx) (log ++ [(t0 + wait)%nat])%list.
Proof.
  intros Ht. unfold elapse, armed, call. cbn [timers Timer.pending fire].
  destruct (Nat.leb_spec (t0 + wait) t) as [_|Hlt]; [|lia].
  cbn [timers timeout context executed Timer.clearTimeout Timer.remove Timer.tick
       Timer.pending Timer.now Timer.nextId Timer.setTimeout expire fire].
  rewrite filter_cons_False by (cbn; tauto). rewrite filter_nil.
  cbn [app]. by rewrite !Nat.max_r by lia.
Qed.

(** Left alone until its timer is due, the closure runs the function
    once; before that, nothing runs. *)
Lemma elapse_armed (i nx t0 T : nat) (ctx : S) (log : list nat) :
  elapse func T (armed wait i nx t0 ctx log)
  = if (t0 + wait <=? T)%nat
    then {| timers := {| Timer.now := T; Timer.nextId := nx; Timer.pending := [] |};
            timeout := Timer.cleared;
            context := func ctx;
            executed := (log ++ [(t0 + wait)%nat])%list |}
    else {| timers := {| Timer.now := t0 `max` T; Timer.nextId := nx;
                         Timer.pending := [(i, (t0 + wait)%nat)] |};
            timeout := Timer.id i;
            context := ctx;
            executed := log |}.
Proof.
  unfold elapse, armed. cbn [timers Timer.pending fire].
  destruct (Nat.leb_spec (t0 + wait) T) as [Hle|Hlt].
  - cbn [timers timeout context executed Timer.remove Timer.tick
         Timer.pending Timer.now Timer.nextId expire fire].
    unfold Timer.tick, Timer.remove. cbn [Timer.pending Timer.now Timer.nextId].
    rewrite filter_cons_False by (cbn; tauto). rewrite filter_nil.
    by rewrite !Nat.max_r by lia.
  - reflexivity.
Qed.

(** The log after a run of calls: one entry, [wait] after the call, for
    every call that is followed by a quiet interval. *)
Lemma calls_survivors (times : list nat) :
  ∀ (i nx t0 : nat) (ctx : S) (log : list nat) (T : nat),
    chain le (t0 :: times) →
    (List.last (t0 :: times) 0%nat + wait ≤ T)%nat →
    executed (elapse func T (calls func wait times (armed wait i nx t0 ctx log)))
    = (log ++ ((fun t => (t + wait)%nat) <$> survivors wait (t0 :: times)))%list
    ∧ context (elapse func T (calls func wait times (armed wait i nx t0 ctx log)))
      = Nat.iter (length (survivors wait (t0 :: times))) func ctx.
Proof.
  induction times as [|t1 rest IH]; intros i nx t0 ctx log T Hsorted HT.
  - cbn [calls foldl]. rewrite elapse_armed.
    cbn [List.last] in HT. apply Nat.leb_le in HT. rewrite HT. done.
  - change (t0 ≤ t1 ∧ chain le (t1 :: rest))%nat in Hsorted.
    destruct Hsorted as [Hle Hsorted].
    change (calls func wait (t1 :: rest) ?d)
      with (calls func wait rest (call wait (elapse func t1 d))).
    change (List.last (t0 :: t1 :: rest) 0%nat) with (List.last (t1 :: rest) 0%nat) in HT.
    change (survivors wait (t0 :: t1 :: rest))
      with (if (t0 + wait <=? t1)%nat then t0 :: survivors wait (t1 :: rest)
            else survivors wait (t1 :: rest)).
    destruct (Nat.leb_spec (t0 + wait) t1) as [Hlate|Hearly].
    + rewrite call_late by done.
      destruct (IH nx (Datatypes.S nx) t1 (func ctx) (log ++ [(t0 + wait)%nat])%list T
                  Hsorted HT) as [-> ->].
      split.
      * by rewrite <- app_assoc.
      * cbn [length]. by rewrite Nat.iter_succ_r.
    + rewrite call_early by lia.
      exact (IH nx (Datatypes.S nx) t1 ctx log T Hsorted HT).
Qed.

(** In a burst only the last call survives. *)
Lemma survivors_burst (times : list nat) :
  times ≠ [] →
  chain (fun t t' => (t ≤ t' < t + wait)%nat) times →
  survivors wait times = [List.last times 0%nat].
Proof.
  induction times as [|t0 [|t1 rest] IH]; intros Hne Hchain; [done|done|].
  destruct Hchain as [Hgap Hchain].
  change (List.last (t0 :: t1 :: rest) 0%nat) with (List.last (t1 :: rest) 0%nat).
  rewrite <- IH by done.
  change (survivors wait (t0 :: t1 :: rest))
    with (if (t0 + wait <=? t1)%nat then t0 :: survivors wait (t1 :: rest)
          else survivors wait (t1 :: rest)).
  destruct (Nat.leb_spec (t0 + wait) t1); [lia|done].
Qed.

(** Calls that are far apart all survive. *)
Lemma survivors_spaced (times : list nat) :
  chain (fun t t' => (t + wait < t')%nat) times →
  survivors wait times = times.
Proof.
  induction times as [|t0 [|t1 rest] IH]; intros Hchain; [done|done|].
  destruct Hchain as [Hgap Hchain].
  change (survivors wait (t0 :: t1 :: rest))
    with (if (t0 + wait <=? t1)%nat then t0 :: survivors wait (t1 :: rest)
          else survivors wait (t1 :: rest)).
  destruct (Nat.leb_spec (t0 + wait) t1); [|lia]. by rewrite IH.
Qed.

Lemma chain_weaken (R R' : nat -> nat -> Prop) (times : list nat) :
  (∀ a b, R a b → R' a b) → chain R times → chain R' times.
Proof.
  intros HR. induction times as [|t0 [|t1 rest] IH]; [done|done|].
  intros [H0 Hrest]. split; [by apply HR|by apply IH].
Qed.

(** The same from a fresh closure, the first call included. *)
Lemma debounce_survivors (q : Timer.queue) (ctx : S) (times : list nat) (T : nat) :
  Timer.pending q = [] →
  times ≠ [] →
  chain le (Timer.now q :: times) →
  (List.last times 0%nat + wait ≤ T)%nat →
  executed (elapse func T (calls func wait times (debounce q ctx)))
  = (fun t => (t + wait)%nat) <$> survivors wait times
  ∧ context (elapse func T (calls func wait times (debounce q ctx)))
    = Nat.iter (length (survivors wait times)) func ctx.
Proof.
  intros Hq Hne Hsorted HT. destruct times as [|t0 rest]; [done|].
  destruct Hsorted as [Hnow Hsorted].
  change (calls func wait (t0 :: rest) ?d)
    with (calls func wait rest (call wait (elapse func t0 d))).
  assert (E : call wait (elapse func t0 (debounce q ctx))
              = armed wait (Timer.nextId q) (Datatypes.S (Timer.nextId q)) t0 ctx []).
  { unfold elapse, debounce. cbn [timers timeout context executed]. rewrite Hq.
    cbn [fire timers timeout context executed].
    rewrite call_idle by (cbn; auto).
    cbn [Timer.tick Timer.nextId Timer.now]. by rewrite Nat.max_r by lia. }
  rewrite E.
  exact (calls_survivors rest _ _ t0 ctx [] T Hsorted HT).
Qed.

(** A burst leaves the closure armed by its last call, nothing run. *)
Lemma calls_burst (times : list nat) :
  ∀ (i nx t0 : nat) (ctx : S) (log : list nat),
    chain (fun t t' => (t ≤ t' < t + wait)%nat) (t0 :: times) →
    ∃ i' nx',
      calls func wait times (armed wait i nx t0 ctx log)
      = armed wait i' nx' (List.last (t0 :: times) 0%nat) ctx log.
Proof.
  induction times as [|t1 rest IH]; intros i nx t0 ctx log Hchain.
  - by exists i, nx.
  - change ((t0 ≤ t1 < t0 + wait)%nat
            ∧ chain (fun t t' => (t ≤ t' < t + wait)%nat) (t1 :: rest)) in Hchain.
    destruct Hchain as [Hgap Hchain].
    change (calls func wait (t1 :: rest) ?d)
      with (calls func wait rest (call wait (elapse func t1 d))).
    rewrite call_early by done.
    exact (IH nx (Datatypes.S nx) t1 ctx log Hchain).
Qed.

Lemma debounce_first (q : Timer.queue) (ctx : S) (t0 : nat) :
  Timer.pending q = [] →
  (Timer.now q ≤ t0)%nat →
  call wait (elapse func t0 (debounce q ctx))
  = armed wait (Timer.nextId q) (Datatypes.S (Timer.nextId q)) t0 ctx [].
Proof.
  intros Hq Hnow. unfold elapse, debounce. cbn [timers timeout context executed].
  rewrite Hq. cbn [fire timers timeout context executed].
  rewrite call_idle by (cbn; auto).
  cbn [Timer.tick Timer.nextId Timer.now]. by rewrite Nat.max_r by lia.
Qed.

End DebounceFacts.

Lemma filter_all {A} (P : A -> Prop) `{∀ x, Decision (P x)} (l : list A) :
  (∀ x, P x) → filter P l = l.
Proof.
  intros HP. induction l as [|x l IH]; [done|].
  by rewrite filter_cons_True, IH.
Qed.

(** C2.  The render trigger is the debounced body with a wait of 20.  A
    call cancels the timer the closure holds, if any, and sets one due 20
    after the call.  Of one or more calls, each less than 20 after the one
    before, only the last leads to an execution of the body: one
    execution, 20 after the last call, and none before.  Of calls each more
    than 20 after the one before, every one leads to an execution, 20
    after the call. *)
Theorem render_debounced `{Browser} (fuel : nat) :
  Nu.render_wait = 20%nat
  ∧ (∀ d : debounced (option Nu.t),
       timers (Nu.render d)
       = (Timer.setTimeout 20 (Timer.clearTimeout (timeout d) (timers d))).2
       ∧ timeout (Nu.render d) = Timer.id (Timer.nextId (timers d))
       ∧ Timer.pending (timers (Nu.render d))
         = (filter (fun p => Timer.id p.1 ≠ timeout d) (Timer.pending (timers d))
            ++ [(Timer.nextId (timers d), (Timer.now (timers d) + 20)%nat)])%list
       ∧ context (Nu.render d) = context d
       ∧ executed (Nu.render d) = executed d)
  ∧ (∀ (q : Timer.queue) (this : Nu.t) (times : list nat) (T : nat),
       Timer.pending q = [] →
       times ≠ [] →
       Forall (le (Timer.now q)) times →
       chain (fun t t' => (t ≤ t' < t + 20)%nat) times →
       let after :=
         elapse (Nu.render_body fuel) T
           (foldl (fun d t => Nu.render (elapse (Nu.render_body fuel) t d))
                  (debounce q (Some this)) times) in
       ((List.last times 0 + 20 ≤ T)%nat →
        executed after = [(List.last times 0 + 20)%nat]
        ∧ context after = Nu.handleRender fuel this)
       ∧ ((T < List.last times 0 + 20)%nat →
          executed after = [] ∧ context after = Some this))
  ∧ (∀ (q : Timer.queue) (this : Nu.t) (times : list nat) (T : nat),
       Timer.pending q = [] →
       times ≠ [] →
       Forall (le (Timer.now q)) times →
       chain (fun t t' => (t + 20 < t')%nat) times →
       (List.last times 0 + 20 ≤ T)%nat →
       let after :=
         elapse (Nu.render_body fuel) T
           (foldl (fun d t => Nu.render (elapse (Nu.render_body fuel) t d))
                  (debounce q (Some this)) times) in
       executed after = (fun t => (t + 20)%nat) <$> times
       ∧ length (executed after) = length times
       ∧ context after = Nat.iter (length times) (Nu.render_body fuel) (Some this)).
Proof.
  split; [reflexivity|]. split; [|split].
  - intros [q h ctx log]. unfold Nu.render, Nu.render_wait, call.
    cbn [timers timeout context executed Timer.setTimeout snd fst Timer.pending
         Timer.nextId Timer.now].
    split; [by destruct h|]. split; [by destruct h|]. split; [|done].
    destruct h as [| |i]; cbn [Timer.clearTimeout Timer.remove Timer.pending
                               Timer.now Timer.nextId].
    + f_equal. symmetry. apply filter_all. by intros p.
    + f_equal. symmetry. apply filter_all. by intros p.
    + f_equal. apply list_filter_iff. intros p. split; congruence.
  - intros q this times T Hq Hne Hnow Hchain after.
    destruct times as [|t0 rest]; [done|].
    apply Forall_cons in Hnow as [Hnow _].
    assert (E : ∃ i nx,
              foldl (fun d t => Nu.render (elapse (Nu.render_body fuel) t d))
                    (debounce q (Some this)) (t0 :: rest)
              = armed 20 i nx (List.last (t0 :: rest) 0%nat) (Some this) []).
    { cbn [foldl]. unfold Nu.render, Nu.render_wait.
      rewrite debounce_first by done.
      exact (calls_burst (Nu.render_body fuel) 20 rest _ _ t0 (Some this) [] Hchain). }
    destruct E as (i & nx & E). subst after. rewrite E, elapse_armed.
    split; intros HT.
    + apply Nat.leb_le in HT. by rewrite HT.
    + destruct (Nat.leb_spec (List.last (t0 :: rest) 0 + 20) T); [lia|done].
  - intros q this times T Hq Hne Hnow Hchain HT after.
    assert (Hsorted : chain le (Timer.now q :: times)).
    { destruct times as [|t0 rest]; [done|].
      apply Forall_cons in Hnow as [Hnow _]. split; [done|].
      eapply chain_weaken; [|exact Hchain]. intros a b Hab. cbn beta in Hab. lia. }
    destruct (debounce_survivors (Nu.render_body fuel) 20 q (Some this) times T
                Hq Hne Hsorted HT) as [He Hc].
    rewrite survivors_spaced in He, Hc by done.
    subst after. change (foldl _ (debounce q (Some this)) times)
      with (calls (Nu.render_body fuel) 20 times (debounce q (Some this))).
    rewrite He, Hc. by rewrite length_fmap.
Qed.

(** ** The theorems at work

    The reference browser, a textarea of scroll height 100 with 20px
    lines, 16px type, 4px of right padding and no attributes. *)


Lemma handleRender_numerals_witness :
  (0 < lineHeight (Nu.measured Reference.five_lines))%N
  ∧ ∃ that,
      Nu.handleRender 6 Reference.five_lines = Some that
      ∧ numerals (Canvas.bitmap (Nu.canvas that)) = ["1"; "2"; "3"; "4"; "5"].
Proof.
  assert (Hl : (0 < lineHeight (Nu.measured Reference.five_lines))%N)
    by (vm_compute; reflexivity).
  split; [exact Hl|].
  destruct (handleRender_numerals Reference.five_lines Hl)
    as (_ & that & Hrun & Hnum & _).
  exists that. split.
  - apply Hrun. vm_compute. lia.
  - rewrite Hnum. vm_compute. reflexivity.
Defined.

Lemma drawLine_position_witness :
  Nu.handleRender 6 Reference.five_lines = Some (Nu.pass 5 Reference.five_lines)
  ∧ ∃ n, Nu.turns (Nu.line_count 100 (Nu.measured Reference.five_lines)) = Some n
         ∧ length (Bitmap.ops (Canvas.bitmap (Nu.canvas (Nu.pass 5 Reference.five_lines))))
           = Datatypes.S n.
Proof.
  assert (Hrun : Nu.handleRender 6 Reference.five_lines
                 = Some (Nu.pass 5 Reference.five_lines))
    by (vm_compute; reflexivity).
  split; [exact Hrun|].
  destruct (drawLine_position 6 _ _ Hrun) as (n & background & st & Hn & Hops & _).
  exists n. split; [exact Hn|].
  rewrite Hops. cbn [length]. by rewrite !length_fmap, length_seq.
Defined.

Lemma setStyle_padding_left_witness :
  Nu.handleRender 6 Reference.five_lines = Some (Nu.pass 5 Reference.five_lines)
  ∧ ∃ css,
      cssText (Nu.el (Nu.pass 5 Reference.five_lines)) = String.concat ";" css
      ∧ declared "padding-left" css = ["68px"].
Proof.
  assert (Hrun : Nu.handleRender 6 Reference.five_lines
                 = Some (Nu.pass 5 Reference.five_lines))
    by (vm_compute; reflexivity).
  split; [exact Hrun|].
  destruct (setStyle_padding_left 6 _ _ Hrun) as (css & Htext & Hleft).
  exists css. split; [exact Htext|]. rewrite Hleft. vm_compute. reflexivity.
Defined.

Lemma setStyle_background_witness :
  Nu.handleRender 6 Reference.five_lines = Some (Nu.pass 5 Reference.five_lines)
  ∧ ∃ css,
      cssText (Nu.el (Nu.pass 5 Reference.five_lines)) = String.concat ";" css
      ∧ declared "background-attachment" css = ["local"]
      ∧ declared "background-size" css = ["64px auto"].
Proof.
  assert (Hrun : Nu.handleRender 6 Reference.five_lines
                 = Some (Nu.pass 5 Reference.five_lines))
    by (vm_compute; reflexivity).
  split; [exact Hrun|].
  destruct (setStyle_background 6 _ _ Hrun) as (css & Htext & _ & _ & Hatt & Hsize & _).
  exists css. split; [exact Htext|]. split; [exact Hatt|].
  rewrite Hsize. vm_compute. reflexivity.
Defined.

(** C4 as the claim has it fails: the inline style a pass leaves on the
    host attaches the background to the content, not to the viewport. *)
Lemma setStyle_attachment_not_fixed :
  ∃ that,
    Nu.handleRender 6 Reference.five_lines = Some that
    ∧ declared "background-attachment"
        (Nu.setStyle_css (Nu.measured Reference.five_lines)
                         (Canvas.toDataURL (Nu.canvas that)))
      = ["local"]
    ∧ String.index 0 "background-attachment: local" (cssText (Nu.el that)) = Some 71%nat
    ∧ String.index 0 "background-attachment: fixed" (cssText (Nu.el that)) = None
    ∧ String.index 0 "fixed" (cssText (Nu.el that)) = None.
Proof.
  exists (Nu.pass 5 Reference.five_lines).
  split; [vm_compute; reflexivity|].
  split; [reflexivity|].
  repeat split; vm_compute; reflexivity.
Qed.

Lemma handleRender_idempotent_witness :
  Nu.handleRender 6 Reference.five_lines = Some (Nu.pass 5 Reference.five_lines)
  ∧ ∃ that',
      Nu.handleRender 6 (Nu.pass 5 Reference.five_lines) = Some that'
      ∧ Canvas.toDataURL (Nu.canvas that')
        = Canvas.toDataURL (Nu.canvas (Nu.pass 5 Reference.five_lines)).
Proof.
  assert (Hrun : Nu.handleRender 6 Reference.five_lines
                 = Some (Nu.pass 5 Reference.five_lines))
    by (vm_compute; reflexivity).
  split; [exact Hrun|].
  destruct (handleRender_idempotent 6 _ _ (Nu.pass 5 Reference.five_lines) Hrun
              eq_refl eq_refl eq_refl eq_refl eq_refl) as (that' & Hagain & _ & Hurl).
  by exists that'.
Defined.


(** *** Runs of the embedding *)

(** Three calls in a burst, three calls far apart, and a mix. *)
Example burst_runs_once :
  executed (elapse Datatypes.S 100
              (calls Datatypes.S 20 [0; 5; 10]%nat
                     (debounce {| Timer.now := 0; Timer.nextId := 1; Timer.pending := [] |}
                               0%nat)))
  = [30%nat].
Proof. reflexivity. Qed.

Example spaced_runs_each :
  executed (elapse Datatypes.S 100
              (calls Datatypes.S 20 [0; 30; 60]%nat
                     (debounce {| Timer.now := 0; Timer.nextId := 1; Timer.pending := [] |}
                               0%nat)))
  = [20; 50; 80]%nat.
Proof. reflexivity. Qed.

Example mixed_runs :
  executed (elapse Datatypes.S 200
              (calls Datatypes.S 20 [0; 5; 40; 45; 100]%nat
                     (debounce {| Timer.now := 0; Timer.nextId := 1; Timer.pending := [] |}
                               0%nat)))
  = [25; 65; 120]%nat.
Proof. reflexivity. Qed.

(** A host whose lines are 0px high: the loop is still running after a
    thousand turns; with nothing to scroll the pass returns at once. *)
Example zero_line_height_runs_on :
  Nu.handleRender 1000 (Reference.nu 1 "0px" 100) = None.
Proof. vm_compute. reflexivity. Qed.

Example zero_line_height_empty_host :
  numerals <$> (Canvas.bitmap <$> (Nu.canvas <$> Nu.handleRender 1 (Reference.nu 1 "0px" 0)))
  = Some [].
Proof. vm_compute. reflexivity. Qed.

(** Seven lines after the host has grown to 140px. *)
Example seven_lines :
  numerals <$> (Canvas.bitmap <$> (Nu.canvas <$> Nu.handleRender 8 (Reference.nu 1 "20px" 140)))
  = Some ["1"; "2"; "3"; "4"; "5"; "6"; "7"].
Proof. vm_compute. reflexivity. Qed.

(** A last line that is not full still gets its numeral. *)
Example partial_last_line :
  numerals <$> (Canvas.bitmap <$> (Nu.canvas <$> Nu.handleRender 8 (Reference.nu 1 "20px" 101)))
  = Some ["1"; "2"; "3"; "4"; "5"; "6"].
Proof. vm_compute. reflexivity. Qed.

(** On a display with three device pixels to two pixels the raster is 96
    wide, and the second numeral sits at x = 96 - 8 * 1.5 * 2 = 72 and
    y = 30 + (30 + 24) / 2 = 57. *)
Example second_numeral_at_ratio_3_2 :
  (fun that =>
     match Bitmap.ops (Canvas.bitmap (Nu.canvas that)) !! 2%nat with
     | Some (Bitmap.FillText st text x y) =>
         Some (Canvas.width (Nu.canvas that), text, Qred x, Qred y,
               Bitmap.textAlign st, Bitmap.font st)
     | _ => None
     end)
    <$> @Nu.handleRender (Reference.browser (3 # 2)) 6 (Reference.nu (3 # 2) "20px" 100)
  = Some (Some (96%Z, "2", 72%Q, 57%Q, "end", "24px monospace")).
Proof. vm_compute. reflexivity. Qed.

(** An attribute replaces a default, an empty attribute does not, and a
    property given at [attach] replaces both, also when it was given as
    [undefined]. *)
Example attributes_and_overrides :
  (Nu.ensureStyles
     (Nu.new {| attributes := {[ "data-nut-width" := "3em"; "data-nut-color" := "";
                                 "data-nut-padding" := "2px" ]};
                cssText := ""; scrollHeight := 0;
                computedStyle := fun _ => "" |}
             (Some {| numberWidth := None; numberPadding := Some (Some "1px");
                      numberColor := None; numberBgColor := Some None |}))).1
  = {| numberWidth := Some (Some "3em"); numberPadding := Some (Some "1px");
       numberColor := Some (Some "#666"); numberBgColor := Some None |}.
Proof. vm_compute. reflexivity. Qed.

(** With [{numberWidth: undefined, numberPadding: undefined}] given at
    [attach] both assignments to the probe are ignored: the gutter padding
    reads the host's right padding, the gutter width reads 0. *)
Example undefined_lengths :
  getMeasure (Reference.computed "0px" "4px" "20px" "16px" "monospace")
             {| numberWidth := Some None; numberPadding := Some None;
                numberColor := None; numberBgColor := None |}
  = {| lineHeight := 20; fontSize := 16; paddingTop := 0; paddingRight := 4;
       nuWidth := 0; nuPadding := 4 |}.
Proof. vm_compute. reflexivity. Qed.

(** With [{numberBgColor: undefined, numberColor: "#00f"}] the background
    is painted in the canvas's initial black; with a numeral colour that is
    no colour the numerals are painted in the colour of the background. *)
Example undefined_colours :
  (Bitmap.fillStyle <$>
     (fun this => [Nu.background_state this; Nu.numeral_state this])
       (Nu.new (Reference.host "20px" 100)
               (Some {| numberWidth := None; numberPadding := None;
                        numberColor := Some (Some "#00f");
                        numberBgColor := Some None |})))
  = ["#000000"; "#00f"]
  ∧ (Bitmap.fillStyle <$>
       (fun this => [Nu.background_state this; Nu.numeral_state this])
         (Nu.new (Reference.host "20px" 100)
                 (Some {| numberWidth := None; numberPadding := None;
                          numberColor := Some (Some "grey-ish");
                          numberBgColor := None |})))
    = ["#f4f4f4"; "#f4f4f4"].
Proof. split; vm_compute; reflexivity. Qed.

(** The snapshot of a new instance is empty: the first [styleDiff] reports
    a change, the first [dataDiff] on a host without attributes does not
    ([null] is loosely equal to [undefined]). *)
Example first_diffs :
  (StyleMutation.styleDiff (computedStyle (Reference.host "20px" 100)) StyleMutation.new).1
  = true
  ∧ (StyleMutation.dataDiff (Reference.host "20px" 100) StyleMutation.new).1 = false.
Proof. split; vm_compute; reflexivity. Qed.

(** * Beyond the claims *)

(** ** The attribute half of the change detector *)

Lemma getAttribute_loose_ne (host host' : HTMLElement) (a : string) :
  loose_ne (getAttribute host' a) (getAttribute host a) = true
  ↔ attributes host' !! a ≠ attributes host !! a.
Proof.
  unfold getAttribute, loose_ne.
  destruct (attributes host' !! a) as [x|], (attributes host !! a) as [y|]; cbn;
    rewrite ?negb_true_iff, ?bool_decide_eq_false; split; try done; congruence.
Qed.

Lemma dataDiff_true_iff (host : HTMLElement) (this : StyleMutation.t) :
  (StyleMutation.dataDiff host this).1 = true
  ↔ ∃ a, a ∈ dataAttrs
         ∧ loose_ne (getAttribute host a) (Map_get (StyleMutation.prevData this) a) = true.
Proof.
  unfold StyleMutation.dataDiff. cbn [fst snd]. rewrite diff_flag.
  rewrite orb_false_l, existsb_exists.
  split; intros (a & Ha & E); exists a; (split; [by apply list_elem_of_In|done]).
Qed.

Lemma dataDiff_ext (host host' : HTMLElement) (this : StyleMutation.t) :
  (∀ a, a ∈ dataAttrs → attributes host' !! a = attributes host !! a) →
  StyleMutation.dataDiff host' this = StyleMutation.dataDiff host this.
Proof.
  intros Hagree. unfold StyleMutation.dataDiff.
  assert (E : ∀ keys acc, (∀ a, a ∈ keys → attributes host' !! a = attributes host !! a) →
            foldl (StyleMutation.diff_step (getAttribute host')) acc keys
            = foldl (StyleMutation.diff_step (getAttribute host)) acc keys).
  { induction keys as [|k ks IH]; intros acc Hk; [done|].
    cbn [foldl].
    assert (Ek : getAttribute host' k = getAttribute host k)
      by (unfold getAttribute; by rewrite (Hk k) by left).
    unfold StyleMutation.diff_step at 2 4. rewrite Ek.
    apply IH. intros a Ha. apply Hk. by right. }
  by rewrite E.
Qed.

Lemma dataDiff_after_set style (host host' : HTMLElement) (this : StyleMutation.t) :
  (∀ a, a ∈ dataAttrs → attributes host' !! a = attributes host !! a) →
  StyleMutation.dataDiff host' (StyleMutation.set style host this)
  = (false, StyleMutation.set style host this).
Proof.
  intros Hagree. rewrite (dataDiff_ext host host') by done.
  unfold StyleMutation.dataDiff, StyleMutation.set.
  cbn [fst snd StyleMutation.prevStyle StyleMutation.prevData].
  rewrite diff_quiet; [done|].
  intros k Hk. unfold Map_get. rewrite (set_seen (getAttribute host)) by done.
  cbn [default]. unfold loose_ne. by rewrite loose_eq_refl.
Qed.

Lemma dataAttrs_four :
  dataAttrs = ["data-nut-width"; "data-nut-padding"; "data-nut-color"; "data-nut-bg-color"].
Proof. reflexivity. Qed.

(** X1.  [dataDiff] looks at the four data attributes and at nothing else
    of the host, and never touches the style half of the snapshot.  It
    answers [true] exactly when one of the four is loosely unequal to the
    snapshot, and [false] when asked again.  After [set] on a host it
    answers [true] for a host exactly when one of the four attributes has
    been added, removed or given another value, the empty string
    included. *)
Theorem dataDiff_change_detector :
  dataAttrs = ["data-nut-width"; "data-nut-padding"; "data-nut-color"; "data-nut-bg-color"]
  ∧ (∀ host host' this,
       (∀ a, a ∈ dataAttrs → attributes host' !! a = attributes host !! a) →
       StyleMutation.dataDiff host' this = StyleMutation.dataDiff host this)
  ∧ (∀ host this,
       StyleMutation.prevStyle (StyleMutation.dataDiff host this).2
       = StyleMutation.prevStyle this)
  ∧ (∀ host this,
       (StyleMutation.dataDiff host this).1 = true
       ↔ ∃ a, a ∈ dataAttrs
              ∧ loose_ne (getAttribute host a) (Map_get (StyleMutation.prevData this) a)
                = true)
  ∧ (∀ host this,
       (StyleMutation.dataDiff host (StyleMutation.dataDiff host this).2).1 = false)
  ∧ (∀ style host host' this,
       (StyleMutation.dataDiff host' (StyleMutation.set style host this)).1 = true
       ↔ ∃ a, a ∈ dataAttrs ∧ attributes host' !! a ≠ attributes host !! a).
Proof.
  split; [reflexivity|]. split; [intros; by apply dataDiff_ext|].
  split; [reflexivity|]. split; [apply dataDiff_true_iff|]. split.
  - intros host this. apply not_true_is_false.
    intros (a & Ha & Hne)%dataDiff_true_iff.
    unfold StyleMutation.dataDiff in Hne. cbn [snd StyleMutation.prevData] in Hne.
    unfold loose_ne in Hne. by rewrite (diff_seen (getAttribute host)) in Hne.
  - intros style host host' this. rewrite dataDiff_true_iff.
    split; intros (a & Ha & Hne); exists a; (split; [done|]).
    + apply getAttribute_loose_ne.
      unfold StyleMutation.set in Hne. cbn [StyleMutation.prevData] in Hne.
      unfold Map_get in Hne. by rewrite (set_seen (getAttribute host)) in Hne.
    + unfold StyleMutation.set. cbn [StyleMutation.prevData].
      unfold Map_get. rewrite (set_seen (getAttribute host)) by done.
      by apply getAttribute_loose_ne.
Qed.

(** X2.  On the empty snapshot of a new instance [styleDiff] answers
    [true] whatever the style (a string is never loosely equal to
    [undefined]), while [dataDiff] answers [true] only for a host that
    carries one of the four data attributes ([null] is loosely equal to
    [undefined]). *)
Theorem new_snapshot_diffs (style : CSSStyleDeclaration) (host : HTMLElement) :
  (StyleMutation.styleDiff style StyleMutation.new).1 = true
  ∧ ((StyleMutation.dataDiff host StyleMutation.new).1 = true
     ↔ ∃ a, a ∈ dataAttrs ∧ is_Some (attributes host !! a)).
Proof.
  split.
  - apply styleDiff_true_iff. exists "paddingTop". split; [by left|reflexivity].
  - rewrite dataDiff_true_iff.
    split; intros (a & Ha & Hx); exists a; (split; [done|]).
    + unfold getAttribute in Hx. by destruct (attributes host !! a).
    + destruct Hx as [x Hx]. unfold getAttribute. by rewrite Hx.
Qed.

(** ** A pass and the change detector *)

Lemma pass_snapshot `{Browser} (fuel : nat) (this that : Nu.t)
    (style : CSSStyleDeclaration) (host : HTMLElement) :
  Nu.handleRender fuel this = Some that →
  (∀ p, p ∈ mutationStyleProps → style p = computedStyle (Nu.el this) p) →
  (∀ a, a ∈ dataAttrs → attributes host !! a = attributes (Nu.el this) !! a) →
  StyleMutation.styleDiff style (Nu.styleMutation that) = (false, Nu.styleMutation that)
  ∧ StyleMutation.dataDiff host (Nu.styleMutation that) = (false, Nu.styleMutation that).
Proof.
  intros Hrun Hstyle Hattr. apply handleRender_inv in Hrun as (n & _ & _ & ->).
  cbn [Nu.pass Nu.el Nu.styleMutation computedStyle attributes] in *. split.
  - rewrite (styleDiff_ext style (computedStyle (Nu.el this))) by done.
    apply styleDiff_after_set.
  - by apply dataDiff_after_set.
Qed.

Lemma pass_host `{Browser} (fuel : nat) (this that : Nu.t) :
  Nu.handleRender fuel this = Some that →
  attributes (Nu.el that) = attributes (Nu.el this)
  ∧ computedStyle (Nu.el that) = computedStyle (Nu.el this)
  ∧ scrollHeight (Nu.el that) = scrollHeight (Nu.el this).
Proof. intros Hrun. by apply handleRender_inv in Hrun as (n & _ & _ & ->). Qed.

(** X3.  A pass that returns leaves the detector settled on the host as the
    pass saw it: asked about the style and about the attributes of the host
    it leaves, or of any host with the same five properties and four
    attributes, both halves answer [false] and change nothing. *)
Theorem handleRender_settles_detector `{Browser} (fuel : nat) (this that : Nu.t)
    (style : CSSStyleDeclaration) (host : HTMLElement) :
  Nu.handleRender fuel this = Some that →
  (∀ p, p ∈ mutationStyleProps → style p = computedStyle (Nu.el that) p) →
  (∀ a, a ∈ dataAttrs → attributes host !! a = attributes (Nu.el that) !! a) →
  StyleMutation.styleDiff style (Nu.styleMutation that) = (false, Nu.styleMutation that)
  ∧ StyleMutation.dataDiff host (Nu.styleMutation that) = (false, Nu.styleMutation that).
Proof.
  intros Hrun Hstyle Hattr. destruct (pass_host fuel this that Hrun) as (Ha & Hc & _).
  apply (pass_snapshot fuel this that style host Hrun).
  - intros p Hp. rewrite Hstyle by done. by rewrite Hc.
  - intros a Ha'. rewrite Hattr by done. by rewrite Ha.
Qed.

Lemma handleRender_settles_detector_witness :
  Nu.handleRender 6 Reference.five_lines = Some (Nu.pass 5 Reference.five_lines)
  ∧ (StyleMutation.styleDiff (computedStyle (Reference.host "20px" 100))
       (Nu.styleMutation (Nu.pass 5 Reference.five_lines))).1 = false
  ∧ (StyleMutation.dataDiff (Reference.host "20px" 100)
       (Nu.styleMutation (Nu.pass 5 Reference.five_lines))).1 = false.
Proof.
  assert (Hrun : Nu.handleRender 6 Reference.five_lines
                 = Some (Nu.pass 5 Reference.five_lines))
    by (vm_compute; reflexivity).
  split; [exact Hrun|].
  destruct (handleRender_settles_detector 6 _ _
              (computedStyle (Reference.host "20px" 100)) (Reference.host "20px" 100)
              Hrun ltac:(reflexivity) ltac:(reflexivity)) as [-> ->].
  done.
Defined.

(** ** Debounce, whatever happens *)

Section DebounceOrder.
Context {S : Type} (func : S -> S) (wait : nat).

Lemma orderly_debounce (q : Timer.queue) (ctx : S) :
  Timer.pending q = [] → orderly wait (debounce q ctx).
Proof. intros Hq. unfold orderly, debounce. cbn. by rewrite Hq. Qed.

Lemma orderly_armed (i nx t : nat) (ctx : S) (log : list nat) :
  orderly wait (armed wait i nx t ctx log).
Proof. unfold orderly, armed. cbn. split; [done|lia]. Qed.

(** A call on a closure in order leaves it armed, whatever it held. *)
Lemma call_orderly (d : debounced S) :
  orderly wait d →
  call wait d
  = armed wait (Timer.nextId (timers d)) (Datatypes.S (Timer.nextId (timers d)))
          (Timer.now (timers d)) (context d) (executed d).
Proof.
  destruct d as [[t nx p] h ctx log]. unfold orderly, call, armed.
  cbn [timers timeout context executed Timer.pending Timer.now Timer.nextId].
  destruct p as [|[i due] [|]]; [| |done].
  - intros Hh. destruct h as [| |i]; [done|done|]. by destruct (Hh i).
  - intros [-> _].
    cbn [Timer.clearTimeout Timer.remove Timer.setTimeout Timer.pending Timer.now
         Timer.nextId].
    rewrite filter_cons_False by (cbn; tauto). by rewrite filter_nil.
Qed.

(** Time passing over a closure in order: the pending timer runs if it is
    due, once, and the closure stays in order. *)
Lemma elapse_orderly (t : nat) (d : debounced S) :
  orderly wait d →
  orderly wait (elapse func t d)
  ∧ (Timer.now (timers d) ≤ Timer.now (timers (elapse func t d)))%nat
  ∧ ((elapse func t d = {| timers := Timer.tick t (timers d); timeout := timeout d;
                           context := context d; executed := executed d |})
     ∨ (∃ i due,
          Timer.pending (timers d) = [(i, due)] ∧ (due ≤ t)%nat
          ∧ Timer.pending (timers (elapse func t d)) = []
          ∧ Timer.now (timers (elapse func t d)) = t
          ∧ context (elapse func t d) = func (context d)
          ∧ executed (elapse func t d) = (executed d ++ [due])%list)).
Proof.
  destruct d as [[now nx p] h ctx log]. unfold orderly, elapse.
  cbn [timers timeout context executed Timer.pending Timer.now Timer.nextId].
  destruct p as [|[i due] [|]]; [| |done].
  - intros Hh. cbn. split; [done|]. split; [lia|]. by left.
  - intros [-> Hdue]. cbn [fire].
    destruct (Nat.leb_spec due t) as [Hle|Hlt].
    + cbn [timers timeout context executed expire fire].
      unfold Timer.tick, Timer.remove. cbn [Timer.pending Timer.now Timer.nextId].
      rewrite filter_cons_False by (cbn; tauto). rewrite filter_nil.
      replace ((now `max` due) `max` t) with t by lia.
      replace (now `max` due) with due by lia.
      split; [done|]. split; [lia|]. right. by exists i, due.
    + cbn. split; [split; [done|lia]|]. split; [lia|]. by left.
Qed.

Lemma happen_in_order (ctx0 : S) (d : debounced S) (calls0 : nat) (e : happening) :
  orderly wait d →
  (length (executed d) + length (Timer.pending (timers d)) ≤ calls0)%nat →
  context d = Nat.iter (length (executed d)) func ctx0 →
  Forall (fun t => (t ≤ Timer.now (timers d))%nat) (executed d) →
  let d' := happen func wait d e in
  orderly wait d'
  ∧ (length (executed d') + length (Timer.pending (timers d'))
     ≤ calls0 + (if decide (e = Called) then 1 else 0))%nat
  ∧ context d' = Nat.iter (length (executed d')) func ctx0
  ∧ Forall (fun t => (t ≤ Timer.now (timers d'))%nat) (executed d').
Proof.
  intros Ho Hc Hctx Hlog. destruct e as [|t]; cbn [happen]; cbv zeta.
  - rewrite call_orderly by done. split; [apply orderly_armed|].
    unfold armed. cbn [executed timers Timer.pending Timer.now context length].
    rewrite decide_True by done. split; [lia|]. done.
  - destruct (elapse_orderly t d Ho) as (Ho' & Hnow & [E|E]).
    + split; [done|]. rewrite E in *.
      cbn [executed timers Timer.tick Timer.pending Timer.now context] in *.
      rewrite decide_False by done. split; [lia|]. split; [done|].
      eapply Forall_impl; [exact Hlog|]. cbn beta. lia.
    + destruct E as (i & due & Hp & Hdue & Hp' & Hn' & Hc' & He').
      split; [done|]. rewrite Hp', Hn', Hc', He'. rewrite Hp in Hc.
      rewrite length_app. cbn [length] in *. rewrite decide_False by done.
      split; [lia|]. split.
      * rewrite Nat.add_1_r. cbn [Nat.iter]. by rewrite Hctx.
      * apply Forall_app. split.
        -- eapply Forall_impl; [exact Hlog|]. cbn beta. lia.
        -- by apply Forall_singleton.
Qed.

End DebounceOrder.

(** X4.  Whatever calls are made and however time passes, a debounced
    function made on a queue with no timer stays in order: at most one
    timer is pending, it is the one the closure holds, and it is due within
    [wait] of now.  The function has run at most as often as the closure
    was called (a pending timer counting as a run to come), never later
    than now, and the context is the initial one with the function applied
    once per run. *)
Theorem debounce_in_order {S : Type} (func : S -> S) (wait : nat)
    (q : Timer.queue) (ctx : S) (events : list happening) :
  Timer.pending q = [] →
  let d := foldl (happen func wait) (debounce q ctx) events in
  orderly wait d
  ∧ (length (Timer.pending (timers d)) ≤ 1)%nat
  ∧ (length (executed d) + length (Timer.pending (timers d))
     ≤ length (filter (fun e => e = Called) events))%nat
  ∧ context d = Nat.iter (length (executed d)) func ctx
  ∧ Forall (fun t => (t ≤ Timer.now (timers d))%nat) (executed d).
Proof.
  intros Hq. cbv zeta.
  assert (G : ∀ events d calls0,
            orderly wait d →
            (length (executed d) + length (Timer.pending (timers d)) ≤ calls0)%nat →
            context d = Nat.iter (length (executed d)) func ctx →
            Forall (fun t => (t ≤ Timer.now (timers d))%nat) (executed d) →
            let d' := foldl (happen func wait) d events in
            orderly wait d'
            ∧ (length (executed d') + length (Timer.pending (timers d'))
               ≤ calls0 + length (filter (fun e => e = Called) events))%nat
            ∧ context d' = Nat.iter (length (executed d')) func ctx
            ∧ Forall (fun t => (t ≤ Timer.now (timers d'))%nat) (executed d')).
  { clear. induction events as [|e events IH]; intros d calls0 Ho Hc Hctx Hlog; cbv zeta.
    - cbn [foldl filter list_filter length]. rewrite Nat.add_0_r. done.
    - cbn [foldl].
      destruct (happen_in_order func wait ctx d calls0 e Ho Hc Hctx Hlog)
        as (Ho' & Hc' & Hctx' & Hlog').
      destruct (IH _ _ Ho' Hc' Hctx' Hlog') as (Ho'' & Hc'' & Hctx'' & Hlog'').
      split; [done|]. split; [|done].
      rewrite filter_cons. destruct (decide (e = Called)); cbn [length] in *; lia. }
  destruct (G events (debounce q ctx) 0%nat) as (Ho & Hc & Hctx & Hlog).
  - by apply orderly_debounce.
  - unfold debounce. cbn. by rewrite Hq.
  - done.
  - by apply Forall_nil.
  - split; [done|]. split; [|done].
    unfold orderly in Ho.
    destruct (Timer.pending (timers (foldl (happen func wait) (debounce q ctx) events)))
      as [|[i due] [|]]; cbn [length]; [lia|lia|done].
Qed.

Lemma debounce_in_order_witness :
  orderly 20 (foldl (happen Datatypes.S 20) (debounce (idle_queue 0) 0%nat)
                    [Called; Elapsed 5; Called; Elapsed 30; Called; Called; Elapsed 40])
  ∧ executed (foldl (happen Datatypes.S 20) (debounce (idle_queue 0) 0%nat)
                    [Called; Elapsed 5; Called; Elapsed 30; Called; Called; Elapsed 40])
    = [25%nat].
Proof.
  split; [|reflexivity].
  exact (proj1 (debounce_in_order Datatypes.S 20 (idle_queue 0) 0%nat
                  [Called; Elapsed 5; Called; Elapsed 30; Called; Called; Elapsed 40]
                  eq_refl)).
Defined.

(** X5.  For calls at any non-decreasing times, none before the clock of a
    queue with no timer and none at the very instant the timer of the call
    before is due, the function has run, once time has passed [wait]
    beyond the last call, exactly once for every call that is not followed
    by another less than [wait] later, [wait] after that call. *)
Theorem debounce_schedule {S : Type} (func : S -> S) (wait : nat)
    (q : Timer.queue) (ctx : S) (times : list nat) (T : nat) :
  Timer.pending q = [] →
  times ≠ [] →
  chain le (Timer.now q :: times) →
  chain (fun t t' => t' ≠ (t + wait)%nat) times →
  (List.last times 0%nat + wait ≤ T)%nat →
  executed (elapse func T (calls func wait times (debounce q ctx)))
  = (fun t => (t + wait)%nat) <$> survivors wait times
  ∧ context (elapse func T (calls func wait times (debounce q ctx)))
    = Nat.iter (length (survivors wait times)) func ctx
  ∧ Timer.pending (timers (elapse func T (calls func wait times (debounce q ctx)))) = [].
Proof.
  intros Hq Hne Hsorted _ HT.
  destruct (debounce_survivors func wait q ctx times T Hq Hne Hsorted HT) as [He Hc].
  split; [done|]. split; [done|].
  destruct times as [|t0 rest]; [done|]. destruct Hsorted as [Hnow Hsorted].
  change (calls func wait (t0 :: rest) ?d)
    with (calls func wait rest (call wait (elapse func t0 d))).
  rewrite debounce_first by done.
  clear He Hc Hne Hq Hnow. 
  revert Hsorted HT. generalize (Timer.nextId q), (Datatypes.S (Timer.nextId q)).
  generalize (@nil nat). generalize ctx. revert t0.
  induction rest as [|t1 rest IH]; intros t0 ctx0 log i nx Hsorted HT.
  - cbn [calls foldl]. rewrite elapse_armed. cbn [List.last] in HT.
    apply Nat.leb_le in HT. by rewrite HT.
  - change (t0 ≤ t1 ∧ chain le (t1 :: rest))%nat in Hsorted.
    destruct Hsorted as [Hle Hsorted].
    change (calls func wait (t1 :: rest) ?d)
      with (calls func wait rest (call wait (elapse func t1 d))).
    change (List.last (t0 :: t1 :: rest) 0%nat) with (List.last (t1 :: rest) 0%nat) in HT.
    destruct (Nat.leb_spec (t0 + wait) t1) as [Hlate|Hearly].
    + rewrite call_late by done. by apply IH.
    + rewrite call_early by lia. by apply IH.
Qed.

Lemma debounce_schedule_witness :
  chain le (0 :: [0; 5; 26; 47; 50; 120])%nat
  ∧ chain (fun t t' => t' ≠ (t + 20)%nat) [0; 5; 26; 47; 50; 120]%nat
  ∧ executed (elapse Datatypes.S 200
                (calls Datatypes.S 20 [0; 5; 26; 47; 50; 120]%nat
                       (debounce (idle_queue 0) 0%nat)))
    = [25; 46; 70; 140]%nat.
Proof.
  assert (Hs : chain le (0 :: [0; 5; 26; 47; 50; 120])%nat) by (cbn; lia).
  assert (Ht : chain (fun t t' => t' ≠ (t + 20)%nat) [0; 5; 26; 47; 50; 120]%nat)
    by (cbn; lia).
  split; [exact Hs|]. split; [exact Ht|].
  destruct (debounce_schedule Datatypes.S 20 (idle_queue 0) 0%nat
              [0; 5; 26; 47; 50; 120]%nat 200%nat eq_refl ltac:(done) Hs Ht
              ltac:(cbn; lia)) as (He & _ & _).
  rewrite He. reflexivity.
Defined.

(** ** The observers *)

Lemma filter_none {A} (P : A -> Prop) `{∀ x, Decision (P x)} (l : list A) :
  (∀ x, x ∈ l → ¬ P x) → filter P l = [].
Proof.
  induction l as [|x l IH]; intros HP; [done|].
  rewrite filter_cons_False by (apply HP; by left).
  apply IH. intros y Hy. apply HP. by right.
Qed.

Lemma with_styleMutation_same (nu : Nu.t) :
  Nu.with_styleMutation (fun _ => Nu.styleMutation nu) nu = nu.
Proof. by destruct nu. Qed.

Lemma with_context_same {S : Type} (d : debounced S) (c : S) :
  context d = c → with_context (fun _ => c) d = d.
Proof. intros <-. by destruct d. Qed.

Lemma loose_eq_style (name : value) :
  loose_eq name (str "style") = bool_decide (name = str "style").
Proof.
  destruct name as [| |s]; cbn; [done|done|].
  destruct (decide (s = "style")) as [->|Hne].
  - by rewrite !bool_decide_eq_true_2.
  - rewrite !bool_decide_eq_false_2; [done|congruence|done].
Qed.

Lemma loose_ne_type (a b : string) :
  loose_ne (str a) (str b) = negb (bool_decide (a = b)).
Proof. reflexivity. Qed.

(** [notify] asks one half of the detector, keeps what the detector has
    learnt, and calls [render] when the answer is [true]. *)
Lemma notify_unfold (name : value) (d : debounced (option Nu.t)) (nu : Nu.t) :
  context d = Some nu →
  let r := if bool_decide (name = str "style")
           then StyleMutation.styleDiff (computedStyle (Nu.el nu)) (Nu.styleMutation nu)
           else StyleMutation.dataDiff (Nu.el nu) (Nu.styleMutation nu) in
  let d' := with_context (fun _ => Some (Nu.with_styleMutation (fun _ => r.2) nu)) d in
  NuMutationObserver.notify name d = if r.1 then Nu.render d' else d'.
Proof.
  intros Hctx. unfold NuMutationObserver.notify. rewrite Hctx, loose_eq_style.
  by destruct (bool_decide (name = str "style")).
Qed.

Lemma notify_quiet (name : value) (d : debounced (option Nu.t)) (nu : Nu.t) :
  context d = Some nu →
  (if bool_decide (name = str "style")
   then StyleMutation.styleDiff (computedStyle (Nu.el nu)) (Nu.styleMutation nu)
   else StyleMutation.dataDiff (Nu.el nu) (Nu.styleMutation nu))
  = (false, Nu.styleMutation nu) →
  NuMutationObserver.notify name d = d.
Proof.
  intros Hctx Hq. rewrite (notify_unfold name d nu Hctx). cbv zeta. rewrite Hq.
  cbn [fst snd]. rewrite with_styleMutation_same. by apply with_context_same.
Qed.

Lemma orderly_with_context (wait : nat) (f : option Nu.t -> option Nu.t)
    (d : debounced (option Nu.t)) :
  orderly wait d → orderly wait (with_context f d).
Proof. by destruct d. Qed.

(** What [notify] leaves alone. *)
Lemma notify_frame (name : value) (d : debounced (option Nu.t)) :
  executed (NuMutationObserver.notify name d) = executed d
  ∧ Timer.now (timers (NuMutationObserver.notify name d)) = Timer.now (timers d)
  ∧ Nu.el <$> context (NuMutationObserver.notify name d) = Nu.el <$> context d
  ∧ Nu.canvas <$> context (NuMutationObserver.notify name d) = Nu.canvas <$> context d
  ∧ Nu.styles <$> context (NuMutationObserver.notify name d) = Nu.styles <$> context d
  ∧ Nu.dpr <$> context (NuMutationObserver.notify name d) = Nu.dpr <$> context d
  ∧ (orderly 20 d → orderly 20 (NuMutationObserver.notify name d)).
Proof.
  destruct d as [q h [nu|] l].
  - rewrite (notify_unfold name {| timers := q; timeout := h; context := Some nu;
                                    executed := l |} nu eq_refl).
    cbv zeta.
    set (r := if bool_decide (name = str "style") then _ else _).
    destruct (r.1).
    + unfold Nu.render, Nu.render_wait.
      split_and!; try (destruct h; reflexivity).
      intros Ho. rewrite (call_orderly id 20) by (by apply orderly_with_context).
      apply orderly_armed.
    + split_and!; try reflexivity. intros Ho. by apply orderly_with_context.
  - unfold NuMutationObserver.notify. cbn [context]. by split_and!.
Qed.

Lemma mutation_deliver_lookup (nuMap : gmap nat (debounced (option Nu.t)))
    (r : MutationRecord) (node : nat) :
  NuMutationObserver.deliver nuMap r !! node
  = if bool_decide (type r = "attributes" ∧ target r = node)
    then NuMutationObserver.notify (attributeName r) <$> nuMap !! node
    else nuMap !! node.
Proof.
  unfold NuMutationObserver.deliver. rewrite loose_ne_type.
  destruct (decide (type r = "attributes")) as [Ht|Ht].
  - rewrite (bool_decide_eq_true_2 _ Ht). cbn [negb].
    destruct (decide (target r = node)) as [<-|Hn].
    + rewrite bool_decide_eq_true_2 by done.
      destruct (nuMap !! target r) as [d|] eqn:E; [|by rewrite E].
      by rewrite lookup_insert_eq.
    + rewrite bool_decide_eq_false_2 by tauto.
      destruct (nuMap !! target r) as [d|] eqn:E; [|done].
      by rewrite lookup_insert_ne.
  - rewrite (bool_decide_eq_false_2 _ Ht). cbn [negb].
    by rewrite bool_decide_eq_false_2 by tauto.
Qed.

Lemma mutation_callback_lookup (records : list MutationRecord) :
  ∀ (nuMap : gmap nat (debounced (option Nu.t))) (node : nat),
    NuMutationObserver.callback records nuMap !! node
    = (fun d => foldl (fun d r => NuMutationObserver.notify (attributeName r) d) d
                      (filter (fun r => type r = "attributes" ∧ target r = node) records))
      <$> nuMap !! node.
Proof.
  induction records as [|r rs IH]; intros nuMap node.
  - cbn. by destruct (nuMap !! node).
  - change (NuMutationObserver.callback (r :: rs) nuMap)
      with (NuMutationObserver.callback rs (NuMutationObserver.deliver nuMap r)).
    rewrite IH, mutation_deliver_lookup, filter_cons.
    destruct (decide (type r = "attributes" ∧ target r = node)) as [Hr|Hr].
    + rewrite bool_decide_eq_true_2 by done. by destruct (nuMap !! node).
    + by rewrite bool_decide_eq_false_2 by done.
Qed.

(** X6.  The attribute observer's callback treats every host on its own:
    what it leaves for a node is the instance found there, notified of the
    records of type "attributes" that name the node as target, in order.
    Records of another type and records for nodes that are not attached
    change nothing, no node is added or dropped, and an instance comes out
    with the same host, canvas, overrides and pixel ratio, nothing run, and
    its debounced render in order if it was. *)
Theorem mutation_callback_pointwise (records : list MutationRecord)
    (nuMap : gmap nat (debounced (option Nu.t))) :
  (∀ node,
     NuMutationObserver.callback records nuMap !! node
     = (fun d => foldl (fun d r => NuMutationObserver.notify (attributeName r) d) d
                       (filter (fun r => type r = "attributes" ∧ target r = node) records))
       <$> nuMap !! node)
  ∧ dom (NuMutationObserver.callback records nuMap) = dom nuMap
  ∧ ((∀ r, r ∈ records → type r ≠ "attributes" ∨ nuMap !! target r = None) →
     NuMutationObserver.callback records nuMap = nuMap)
  ∧ (∀ node d,
       nuMap !! node = Some d →
       ∃ d',
         NuMutationObserver.callback records nuMap !! node = Some d'
         ∧ executed d' = executed d
         ∧ Nu.el <$> context d' = Nu.el <$> context d
         ∧ Nu.canvas <$> context d' = Nu.canvas <$> context d
         ∧ Nu.styles <$> context d' = Nu.styles <$> context d
         ∧ Nu.dpr <$> context d' = Nu.dpr <$> context d
         ∧ (orderly 20 d → orderly 20 d')).
Proof.
  split; [apply mutation_callback_lookup|]. split; [|split].
  - apply set_eq. intros node. rewrite !elem_of_dom, mutation_callback_lookup.
    by rewrite fmap_is_Some.
  - intros Hnone. apply map_eq. intros node. rewrite mutation_callback_lookup.
    destruct (nuMap !! node) as [d|] eqn:E; [|done]. cbn. f_equal.
    rewrite filter_none; [done|]. intros r Hr [Ht Hn].
    destruct (Hnone r Hr) as [?|Hx]; [done|]. rewrite Hn, E in Hx. done.
  - intros node d Hd. rewrite mutation_callback_lookup, Hd. cbn.
    eexists. split; [reflexivity|].
    induction (filter _ records) as [|r rs IH] using rev_ind; [done|].
    rewrite foldl_app. cbn [foldl].
    destruct IH as (He & Hel & Hcv & Hst & Hdpr & Ho).
    destruct (notify_frame (attributeName r)
                (foldl (fun d r => NuMutationObserver.notify (attributeName r) d) d rs))
      as (He' & _ & Hel' & Hcv' & Hst' & Hdpr' & Ho').
    rewrite He', Hel', Hcv', Hst', Hdpr'. repeat split; try done.
    intros Hord. by apply Ho', Ho.
Qed.

Lemma diff_settled (read : string -> value) (keys : list string) (b b' : bool)
    (m : gmap string value) :
  foldl (StyleMutation.diff_step read) (b', (foldl (StyleMutation.diff_step read) (b, m) keys).2)
        keys
  = (b', (foldl (StyleMutation.diff_step read) (b, m) keys).2).
Proof.
  apply diff_quiet. intros k Hk. unfold loose_ne. by rewrite diff_seen.
Qed.

Lemma styleDiff_settled (style : CSSStyleDeclaration) (this : StyleMutation.t) :
  StyleMutation.styleDiff style (StyleMutation.styleDiff style this).2
  = (false, (StyleMutation.styleDiff style this).2).
Proof.
  unfold StyleMutation.styleDiff. cbn [fst snd StyleMutation.prevStyle StyleMutation.prevData].
  by rewrite diff_settled.
Qed.

Lemma dataDiff_settled (host : HTMLElement) (this : StyleMutation.t) :
  StyleMutation.dataDiff host (StyleMutation.dataDiff host this).2
  = (false, (StyleMutation.dataDiff host this).2).
Proof.
  unfold StyleMutation.dataDiff. cbn [fst snd StyleMutation.prevStyle StyleMutation.prevData].
  by rewrite diff_settled.
Qed.

Lemma styleDiff_set_iff (style style' : CSSStyleDeclaration) (host : HTMLElement)
    (this : StyleMutation.t) :
  (StyleMutation.styleDiff style' (StyleMutation.set style host this)).1 = true
  ↔ ∃ p, p ∈ mutationStyleProps ∧ style' p ≠ style p.
Proof.
  rewrite styleDiff_true_iff.
  split; intros (p & Hp & Hne); exists p; (split; [done|]);
    unfold StyleMutation.set in *; cbn [StyleMutation.prevStyle] in *;
    unfold Map_get in *; rewrite (set_seen (fun p => str (style p))) in * by done;
    cbn [default loose_ne loose_eq] in *.
  - by apply negb_true_iff, bool_decide_eq_false in Hne.
  - by apply negb_true_iff, bool_decide_eq_false.
Qed.

Lemma dataDiff_set_iff (style : CSSStyleDeclaration) (host host' : HTMLElement)
    (this : StyleMutation.t) :
  (StyleMutation.dataDiff host' (StyleMutation.set style host this)).1 = true
  ↔ ∃ a, a ∈ dataAttrs ∧ attributes host' !! a ≠ attributes host !! a.
Proof.
  rewrite dataDiff_true_iff.
  split; intros (a & Ha & Hne); exists a; (split; [done|]);
    unfold StyleMutation.set in *; cbn [StyleMutation.prevData] in *;
    unfold Map_get in *; rewrite (set_seen (getAttribute host)) in * by done;
    by apply getAttribute_loose_ne.
Qed.

(** The half of the detector that a record with this attribute name asks. *)
Lemma notify_changed (name : value) (d : debounced (option Nu.t)) (nu : Nu.t) :
  context d = Some nu →
  orderly 20 d →
  let r := if bool_decide (name = str "style")
           then StyleMutation.styleDiff (computedStyle (Nu.el nu)) (Nu.styleMutation nu)
           else StyleMutation.dataDiff (Nu.el nu) (Nu.styleMutation nu) in
  r.1 = true →
  NuMutationObserver.notify name d
  = armed 20 (Timer.nextId (timers d)) (Datatypes.S (Timer.nextId (timers d)))
          (Timer.now (timers d)) (Some (Nu.with_styleMutation (fun _ => r.2) nu))
          (executed d)
  ∧ NuMutationObserver.notify name (NuMutationObserver.notify name d)
    = NuMutationObserver.notify name d.
Proof.
  intros Hctx Ho r Hr.
  assert (E : NuMutationObserver.notify name d
              = armed 20 (Timer.nextId (timers d)) (Datatypes.S (Timer.nextId (timers d)))
                      (Timer.now (timers d)) (Some (Nu.with_styleMutation (fun _ => r.2) nu))
                      (executed d)).
  { rewrite (notify_unfold name d nu Hctx). cbv zeta. fold r. rewrite Hr.
    unfold Nu.render, Nu.render_wait.
    rewrite (call_orderly id 20) by (by apply orderly_with_context).
    by destruct d. }
  split; [exact E|]. rewrite E.
  apply (notify_quiet name _ (Nu.with_styleMutation (fun _ => r.2) nu)); [done|].
  subst r. destruct nu as [host sm cv sty ratio].
  cbn [Nu.with_styleMutation Nu.el Nu.styleMutation].
  destruct (bool_decide (name = str "style")).
  - apply styleDiff_settled.
  - apply dataDiff_settled.
Qed.

(** X7.  After a pass that has returned, with the host changed meanwhile
    in any way, a record for a mutation of [style] leads to a call of
    [render] exactly when one of the five tracked properties of the
    computed style differs from what the pass saw, and a record for any
    other attribute exactly when one of the four data attributes does.
    The call leaves one timer, due 20 from now, nothing is run, and a
    second record of the same kind in the same batch changes nothing
    more.  Otherwise the callback changes nothing at all. *)
Theorem mutation_callback_after_pass `{Browser} (fuel : nat) (this that : Nu.t)
    (host' : HTMLElement) (nuMap : gmap nat (debounced (option Nu.t)))
    (d : debounced (option Nu.t)) (r : MutationRecord) :
  Nu.handleRender fuel this = Some that →
  nuMap !! target r = Some d →
  context d = Some (Nu.with_el (fun _ => host') that) →
  orderly 20 d →
  type r = "attributes" →
  ((if bool_decide (attributeName r = str "style")
    then ∃ p, p ∈ mutationStyleProps ∧ computedStyle host' p ≠ computedStyle (Nu.el this) p
    else ∃ a, a ∈ dataAttrs ∧ attributes host' !! a ≠ attributes (Nu.el this) !! a) →
   ∃ d',
     NuMutationObserver.callback [r] nuMap = <[target r := d']> nuMap
     ∧ timers d' = {| Timer.now := Timer.now (timers d);
                      Timer.nextId := Datatypes.S (Timer.nextId (timers d));
                      Timer.pending := [(Timer.nextId (timers d),
                                         (Timer.now (timers d) + 20)%nat)] |}
     ∧ timeout d' = Timer.id (Timer.nextId (timers d))
     ∧ executed d' = executed d
     ∧ NuMutationObserver.callback [r; r] nuMap = NuMutationObserver.callback [r] nuMap)
  ∧ (¬ (if bool_decide (attributeName r = str "style")
        then ∃ p, p ∈ mutationStyleProps
                  ∧ computedStyle host' p ≠ computedStyle (Nu.el this) p
        else ∃ a, a ∈ dataAttrs ∧ attributes host' !! a ≠ attributes (Nu.el this) !! a) →
     NuMutationObserver.callback [r] nuMap = nuMap).
Proof.
  intros Hrun Hd Hctx Ho Ht.
  assert (E1 : ∀ m d0, m !! target r = Some d0 →
            NuMutationObserver.callback [r] m
            = <[target r := NuMutationObserver.notify (attributeName r) d0]> m).
  { intros m d0 Hm. unfold NuMutationObserver.callback, NuMutationObserver.deliver.
    cbn [foldl]. rewrite loose_ne_type, Ht, bool_decide_eq_true_2 by done.
    cbn [negb]. by rewrite Hm. }
  set (nu := Nu.with_el (fun _ => host') that) in *.
  assert (Hsm : Nu.styleMutation nu
                = StyleMutation.set (computedStyle (Nu.el this)) (Nu.el this)
                                    (Nu.styleMutation this)).
  { subst nu. by apply handleRender_inv in Hrun as (n & _ & _ & ->). }
  assert (Hel : Nu.el nu = host') by (subst nu; by destruct that).
  assert (Hiff :
    (if bool_decide (attributeName r = str "style")
     then StyleMutation.styleDiff (computedStyle (Nu.el nu)) (Nu.styleMutation nu)
     else StyleMutation.dataDiff (Nu.el nu) (Nu.styleMutation nu)).1 = true
    ↔ (if bool_decide (attributeName r = str "style")
       then ∃ p, p ∈ mutationStyleProps
                 ∧ computedStyle host' p ≠ computedStyle (Nu.el this) p
       else ∃ a, a ∈ dataAttrs ∧ attributes host' !! a ≠ attributes (Nu.el this) !! a)).
  { rewrite Hsm, Hel. destruct (bool_decide (attributeName r = str "style")).
    - apply styleDiff_set_iff.
    - apply dataDiff_set_iff. }
  split.
  - intros Hchanged. apply Hiff in Hchanged.
    destruct (notify_changed (attributeName r) d nu Hctx Ho Hchanged) as [En Eagain].
    exists (NuMutationObserver.notify (attributeName r) d).
    split; [by apply E1|]. rewrite En at 1 2 3.
    split; [reflexivity|]. split; [reflexivity|]. split; [reflexivity|].
    change (NuMutationObserver.callback [r; r] nuMap)
      with (NuMutationObserver.callback [r] (NuMutationObserver.callback [r] nuMap)).
    rewrite (E1 nuMap d Hd).
    rewrite (E1 _ (NuMutationObserver.notify (attributeName r) d))
      by apply lookup_insert_eq.
    by rewrite Eagain, insert_insert_eq.
  - intros Hsame. rewrite (E1 nuMap d Hd).
    rewrite (notify_quiet (attributeName r) d nu Hctx); [by apply insert_id|].
    destruct (_.1) eqn:Eb in Hiff; [by destruct Hsame; apply Hiff|].
    clear Hiff Hsame. rewrite Hsm, Hel in *.
    destruct (bool_decide (attributeName r = str "style")).
    + assert (Hq : ∀ p, p ∈ mutationStyleProps →
                        computedStyle host' p = computedStyle (Nu.el this) p).
      { intros p Hp. destruct (decide (computedStyle host' p = computedStyle (Nu.el this) p))
          as [|Hne]; [done|].
        assert (Hx : (StyleMutation.styleDiff (computedStyle host')
                        (StyleMutation.set (computedStyle (Nu.el this)) (Nu.el this)
                           (Nu.styleMutation this))).1 = true)
          by (apply styleDiff_set_iff; by exists p).
        by rewrite Eb in Hx. }
      rewrite (styleDiff_ext _ (computedStyle (Nu.el this))) by done.
      apply styleDiff_after_set.
    + apply dataDiff_after_set. intros a Ha.
      destruct (decide (attributes host' !! a = attributes (Nu.el this) !! a))
        as [|Hne]; [done|].
      assert (Hx : (StyleMutation.dataDiff host'
                      (StyleMutation.set (computedStyle (Nu.el this)) (Nu.el this)
                         (Nu.styleMutation this))).1 = true)
        by (apply dataDiff_set_iff; by exists a).
      by rewrite Eb in Hx.
Qed.

Lemma resize_deliver_lookup (nuMap : gmap nat (debounced (option Nu.t))) (e node : nat) :
  NuResizeObserver.deliver nuMap e !! node
  = if bool_decide (e = node) then Nu.render <$> nuMap !! node else nuMap !! node.
Proof.
  unfold NuResizeObserver.deliver. destruct (decide (e = node)) as [->|Hne].
  - rewrite bool_decide_eq_true_2 by done.
    destruct (nuMap !! node) as [d|] eqn:E; [|by rewrite E]. by rewrite lookup_insert_eq.
  - rewrite bool_decide_eq_false_2 by done.
    destruct (nuMap !! e) as [d|] eqn:E; [|done]. by rewrite lookup_insert_ne.
Qed.

Lemma resize_callback_lookup (entries : list nat) :
  ∀ (nuMap : gmap nat (debounced (option Nu.t))) (node : nat),
    NuResizeObserver.callback entries nuMap !! node
    = Nat.iter (length (filter (fun e => e = node) entries)) Nu.render <$> nuMap !! node.
Proof.
  induction entries as [|e es IH]; intros nuMap node.
  - cbn. by destruct (nuMap !! node).
  - change (NuResizeObserver.callback (e :: es) nuMap)
      with (NuResizeObserver.callback es (NuResizeObserver.deliver nuMap e)).
    rewrite IH, resize_deliver_lookup, filter_cons.
    destruct (decide (e = node)) as [->|Hne].
    + rewrite bool_decide_eq_true_2 by done. cbn [length].
      destruct (nuMap !! node) as [d|]; [|done].
      cbn [fmap option_fmap option_map]. f_equal. symmetry. apply Nat.iter_succ_r.
    + by rewrite bool_decide_eq_false_2 by done.
Qed.

Lemma iter_render_armed (d : debounced (option Nu.t)) (k : nat) :
  orderly 20 d →
  ∃ i nx,
    Nat.iter (Datatypes.S k) Nu.render d
    = armed 20 i nx (Timer.now (timers d)) (context d) (executed d).
Proof.
  intros Ho. induction k as [|k (i & nx & IH)].
  - eexists _, _. change (Nat.iter 1 Nu.render d) with (call 20 d).
    by rewrite (call_orderly id 20).
  - eexists _, _. change (Nat.iter (Datatypes.S (Datatypes.S k)) Nu.render d)
      with (Nu.render (Nat.iter (Datatypes.S k) Nu.render d)).
    rewrite IH. change (Nu.render ?x) with (call 20 x).
    rewrite (call_orderly id 20) by apply orderly_armed. reflexivity.
Qed.

(** X8.  The resize observer's callback calls [render] once per entry on
    the instance attached to the entry's target, asking nothing of the
    change detector, and leaves the other nodes alone.  However many
    entries name a node, an instance in order comes out with a single
    timer, due 20 from now, its context untouched and nothing run. *)
Theorem resize_callback_renders (entries : list nat)
    (nuMap : gmap nat (debounced (option Nu.t))) :
  (∀ node,
     NuResizeObserver.callback entries nuMap !! node
     = Nat.iter (length (filter (fun e => e = node) entries)) Nu.render <$> nuMap !! node)
  ∧ dom (NuResizeObserver.callback entries nuMap) = dom nuMap
  ∧ (∀ node, node ∉ entries →
             NuResizeObserver.callback entries nuMap !! node = nuMap !! node)
  ∧ (∀ node d,
       nuMap !! node = Some d → orderly 20 d → node ∈ entries →
       ∃ i nx,
         NuResizeObserver.callback entries nuMap !! node
         = Some (armed 20 i nx (Timer.now (timers d)) (context d) (executed d))).
Proof.
  split; [apply resize_callback_lookup|]. split; [|split].
  - apply set_eq. intros node. rewrite !elem_of_dom, resize_callback_lookup.
    by rewrite fmap_is_Some.
  - intros node Hnot. rewrite resize_callback_lookup.
    rewrite filter_none by (intros e He ->; done). by destruct (nuMap !! node).
  - intros node d Hd Ho Hin. rewrite resize_callback_lookup, Hd.
    destruct (length (filter (fun e => e = node) entries)) as [|k] eqn:Ek.
    + apply length_zero_iff_nil in Ek.
      by destruct (filter_nil_not_elem_of _ _ node Ek eq_refl).
    + destruct (iter_render_armed d k Ho) as (i & nx & E).
      exists i, nx. cbn. by rewrite <- E.
Qed.

Lemma foldl_fixed {A B} (f : A -> B -> A) (a : A) (l : list B) :
  (∀ b, b ∈ l → f a b = a) → foldl f a l = a.
Proof.
  induction l as [|b l IH]; intros Hf; [done|].
  cbn [foldl]. rewrite Hf by left. apply IH. intros b' Hb'. apply Hf. by right.
Qed.

(** X9.  What a pass sets off.  When the timer of an armed instance has
    run and the body has returned, the function has run once and no timer
    is pending.  The records of the mutation the pass has made to the
    host's [style] attribute, or any other records for that host, are
    answered by the attribute observer's callback with no call of
    [render]: nothing changes.  An entry of the resize observer for the
    host, which the padding that the pass has written can bring, is
    answered with a call of [render] whatever the change detector holds
    and whatever the host has become: a timer is set, and 20 later the
    body runs a second time, on the instance the first pass has left. *)
Theorem pass_aftermath `{Browser} (fuel : nat) (this that : Nu.t) (node i nx t0 T : nat)
    (log : list nat) :
  Nu.handleRender fuel this = Some that →
  (t0 + 20 ≤ T)%nat →
  let d := elapse (Nu.render_body fuel) T (armed 20 i nx t0 (Some this) log) in
  executed d = (log ++ [(t0 + 20)%nat])%list
  ∧ context d = Some that
  ∧ Timer.pending (timers d) = []
  ∧ (∀ (records : list MutationRecord) (nuMap : gmap nat (debounced (option Nu.t))),
       nuMap !! node = Some d →
       (∀ r, r ∈ records → target r = node) →
       NuMutationObserver.callback records nuMap = nuMap)
  ∧ (∀ (entries : list nat) (host' : HTMLElement) (T' : nat)
       (nuMap : gmap nat (debounced (option Nu.t))),
       nuMap !! node
       = Some (with_context (fun _ => Some (Nu.with_el (fun _ => host') that)) d) →
       node ∈ entries →
       (T + 20 ≤ T')%nat →
       ∃ i' nx',
         NuResizeObserver.callback entries nuMap !! node
         = Some (armed 20 i' nx' T (Some (Nu.with_el (fun _ => host') that))
                       (log ++ [(t0 + 20)%nat]))
         ∧ executed (elapse (Nu.render_body fuel) T'
                       (armed 20 i' nx' T (Some (Nu.with_el (fun _ => host') that))
                              (log ++ [(t0 + 20)%nat])))
           = (log ++ [(t0 + 20)%nat; (T + 20)%nat])%list
         ∧ context (elapse (Nu.render_body fuel) T'
                      (armed 20 i' nx' T (Some (Nu.with_el (fun _ => host') that))
                             (log ++ [(t0 + 20)%nat])))
           = Nu.handleRender fuel (Nu.with_el (fun _ => host') that)).
Proof.
  intros Hrun HT. cbv zeta. rewrite elapse_armed.
  apply Nat.leb_le in HT. rewrite HT. cbn [executed context timers Timer.pending].
  change (Nu.render_body fuel (Some this)) with (Nu.handleRender fuel this).
  rewrite Hrun. split; [done|]. split; [done|]. split; [done|].
  destruct (pass_host fuel this that Hrun) as (Ha & Hc & _).
  destruct (pass_snapshot fuel this that (computedStyle (Nu.el that)) (Nu.el that) Hrun)
    as [Hs Hd]; [by rewrite Hc|by rewrite Ha|].
  split.
  - intros records nuMap Hnode Htarget.
    apply map_eq. intros node'. rewrite mutation_callback_lookup.
    destruct (nuMap !! node') as [d|] eqn:E; [|done]. cbn. f_equal.
    destruct (decide (node' = node)) as [->|Hne].
    + rewrite Hnode in E. injection E as <-.
      apply foldl_fixed. intros r _.
      apply (notify_quiet _ _ that); [done|]. by destruct (bool_decide _).
    + rewrite filter_none; [done|]. intros r Hr [_ Hn]. rewrite Htarget in Hn by done.
      congruence.
  - intros entries host' T' nuMap Hnode Hentry HT'.
    rewrite resize_callback_lookup, Hnode.
    destruct (length (filter (fun e => e = node) entries)) as [|k] eqn:Ek.
    { apply length_zero_iff_nil in Ek.
      by destruct (filter_nil_not_elem_of _ _ node Ek eq_refl). }
    match goal with
    | |- context [fmap _ (Some ?d)] =>
        destruct (iter_render_armed d k) as (i' & nx' & E);
          [unfold orderly; cbn; congruence|]
    end.
    exists i', nx'. cbn [fmap option_fmap option_map]. rewrite E.
    cbn [with_context timers Timer.now context executed]. split; [done|].
    rewrite elapse_armed. apply Nat.leb_le in HT'. rewrite HT'.
    cbn [executed context]. split; [by rewrite <- app_assoc|done].
Qed.

(** ** Attachment *)

Section AttachFacts.
Context `{Browser}.

Lemma nut_lookup (t node node' : nat) (host : HTMLElement) (styles0 : option TStyles)
    (page : NuResizeObserver.t) :
  NuResizeObserver.nuMap (nut t node host styles0 page) !! node'
  = if decide (node = node')
    then Some (debounce (idle_queue t) (Some (Nu.new host styles0)))
    else NuResizeObserver.nuMap page !! node'.
Proof.
  unfold nut, watch, NuMutationObserver.observe, NuResizeObserver.observe.
  cbn [NuResizeObserver.nuMap]. rewrite insert_insert_eq. apply lookup_insert.
Qed.

Lemma init_other (t : nat) (els : list (nat * HTMLElement)) :
  ∀ (page : NuResizeObserver.t) (node : nat),
    node ∉ els.*1 →
    NuResizeObserver.nuMap (init t els page) !! node = NuResizeObserver.nuMap page !! node.
Proof.
  induction els as [|[n h] els IH]; intros page node Hnot; [done|].
  cbn [fmap list_fmap fst] in Hnot. apply not_elem_of_cons in Hnot as [Hne Hnot].
  change (init t ((n, h) :: els) page) with (init t els (nut t n h None page)).
  rewrite IH by done. rewrite nut_lookup. by rewrite decide_False.
Qed.

Lemma init_lookup (t : nat) (els : list (nat * HTMLElement)) :
  ∀ (page : NuResizeObserver.t) (node : nat) (host : HTMLElement),
    NoDup els.*1 →
    (node, host) ∈ els →
    NuResizeObserver.nuMap (init t els page) !! node
    = Some (debounce (idle_queue t) (Some (Nu.new host None))).
Proof.
  induction els as [|[n h] els IH]; intros page node host Hnd Hin.
  - by apply elem_of_nil in Hin.
  - cbn [fmap list_fmap fst] in Hnd. apply NoDup_cons in Hnd as [Hn Hnd].
    change (init t ((n, h) :: els) page) with (init t els (nut t n h None page)).
    apply elem_of_cons in Hin as [[= -> ->]|Hin].
    + rewrite init_other by done. rewrite nut_lookup. by rewrite decide_True.
    + by apply IH.
Qed.

Lemma active_observe (box : nat -> N * N) (node : nat) (o : list (nat * (N * N))) :
  ResizeObserver.active box (ResizeObserver.observe node o)
  = (ResizeObserver.active box (ResizeObserver.unobserve node o)
     ++ if decide (box node = (0, 0)%N) then [] else [node])%list.
Proof.
  unfold ResizeObserver.active, ResizeObserver.observe.
  rewrite filter_app, fmap_app. f_equal.
  rewrite filter_cons, filter_nil. cbn [fst snd].
  destruct (decide (box node = (0, 0)%N)) as [E|E].
  - by rewrite decide_False by (intros Hne; by apply Hne).
  - by rewrite decide_True.
Qed.

Lemma active_unobserve_same (box : nat -> N * N) (node : nat) (o : list (nat * (N * N))) :
  filter (fun e => e = node) (ResizeObserver.active box (ResizeObserver.unobserve node o))
  = [].
Proof.
  apply filter_none. intros e He ->.
  apply list_elem_of_fmap in He as ([n b] & -> & Hin).
  apply list_elem_of_filter in Hin as [_ Hin].
  apply list_elem_of_filter in Hin as [Hne _]. by apply Hne.
Qed.

Lemma active_unobserve_other (box : nat -> N * N) (node node' : nat)
    (o : list (nat * (N * N))) :
  node ≠ node' →
  filter (fun e => e = node) (ResizeObserver.active box (ResizeObserver.unobserve node' o))
  = filter (fun e => e = node) (ResizeObserver.active box o).
Proof.
  intros Hne. unfold ResizeObserver.active, ResizeObserver.unobserve.
  induction o as [|[n b] o IH]; [done|].
  rewrite !filter_cons. cbn [fst snd].
  destruct (decide (n ≠ node')) as [Hn|Hn].
  - rewrite !filter_cons. cbn [fst snd].
    destruct (decide (box n ≠ b)); [|exact IH].
    cbn [fmap list_fmap fst]. rewrite !filter_cons.
    destruct (decide (n = node)); [by rewrite IH|exact IH].
  - assert (n = node') as -> by (by destruct (decide (n = node')); [|destruct Hn]).
    rewrite IH. destruct (decide (box node' ≠ b)); [|done].
    cbn [fmap list_fmap fst]. rewrite filter_cons. by rewrite decide_False by done.
Qed.

Lemma init_entries_other (t : nat) (box : nat -> N * N) (els : list (nat * HTMLElement)) :
  ∀ (page : NuResizeObserver.t) (node : nat),
    node ∉ els.*1 →
    filter (fun e => e = node)
           (ResizeObserver.active box (NuResizeObserver.observer (init t els page)))
    = filter (fun e => e = node)
             (ResizeObserver.active box (NuResizeObserver.observer page)).
Proof.
  induction els as [|[n h] els IH]; intros page node Hnot; [done|].
  cbn [fmap list_fmap fst] in Hnot. apply not_elem_of_cons in Hnot as [Hne Hnot].
  change (init t ((n, h) :: els) page) with (init t els (nut t n h None page)).
  rewrite IH by done.
  change (NuResizeObserver.observer (nut t n h None page))
    with (ResizeObserver.observe n (NuResizeObserver.observer page)).
  rewrite active_observe, filter_app, active_unobserve_other by done.
  destruct (decide (box n = (0, 0)%N)); [by rewrite app_nil_r|].
  rewrite filter_cons, decide_False by done. by rewrite app_nil_r.
Qed.

Lemma init_entries (t : nat) (box : nat -> N * N) (els : list (nat * HTMLElement)) :
  ∀ (page : NuResizeObserver.t) (node : nat),
    NoDup els.*1 →
    node ∈ els.*1 →
    filter (fun e => e = node)
           (ResizeObserver.active box (NuResizeObserver.observer (init t els page)))
    = if decide (box node = (0, 0)%N) then [] else [node].
Proof.
  induction els as [|[n h] els IH]; intros page node Hnd Hin.
  - by apply elem_of_nil in Hin.
  - cbn [fmap list_fmap fst] in Hnd, Hin. apply NoDup_cons in Hnd as [Hn Hnd].
    change (init t ((n, h) :: els) page) with (init t els (nut t n h None page)).
    destruct (decide (node ∈ els.*1)) as [Hel|Hel]; [by apply IH|].
    apply elem_of_cons in Hin as [->|Hin]; [|done].
    rewrite init_entries_other by done.
    change (NuResizeObserver.observer (nut t n h None page))
      with (ResizeObserver.observe n (NuResizeObserver.observer page)).
    rewrite active_observe, filter_app, active_unobserve_same.
    destruct (decide (box n = (0, 0)%N)); [done|].
    by rewrite filter_cons, decide_True.
Qed.

Lemma active_report (box : nat -> N * N) (o : list (nat * (N * N))) :
  ResizeObserver.active box (ResizeObserver.report box o) = [].
Proof.
  unfold ResizeObserver.active, ResizeObserver.report.
  rewrite filter_none; [done|]. intros p Hp Hne.
  apply list_elem_of_fmap in Hp as (p' & -> & _). by apply Hne.
Qed.

Lemma report_lookup (fuel T : nat) (box : nat -> N * N) (page : NuResizeObserver.t)
    (node : nat) :
  NuResizeObserver.nuMap (NuResizeObserver.report fuel T box page) !! node
  = Nat.iter (length (filter (fun e => e = node)
                        (ResizeObserver.active box (NuResizeObserver.observer page))))
             Nu.render
    <$> (elapse (Nu.render_body fuel) T <$> NuResizeObserver.nuMap page !! node).
Proof.
  unfold NuResizeObserver.report. cbn [NuResizeObserver.nuMap].
  by rewrite resize_callback_lookup, lookup_fmap.
Qed.

End AttachFacts.

(** X10.  [init] attaches every element it is given and no other, and has
    the resize observer observe each.  At the browser's first delivery
    after that, every listed element that has a content box gets its
    [render] called, once: one timer is set, and 20 later the first pass
    runs on the new instance made for its host, with no overrides.  A
    listed element without a box (0 by 0: it is not displayed) stays idle,
    no timer set and nothing run.  Once the delivery is made there is
    nothing to deliver until a box changes.  The nodes not listed keep
    what they had. *)
Theorem init_attaches `{Browser} (fuel t T : nat) (els : list (nat * HTMLElement))
    (box : nat -> N * N) (page : NuResizeObserver.t) :
  NoDup els.*1 →
  (t ≤ T)%nat →
  (∀ node host,
     (node, host) ∈ els →
     NuResizeObserver.nuMap (NuResizeObserver.report fuel T box (init t els page)) !! node
     = Some (if decide (box node = (0, 0)%N)
             then debounce (idle_queue T) (Some (Nu.new host None))
             else armed 20 0 1 T (Some (Nu.new host None)) []))
  ∧ (∀ node host T',
       (node, host) ∈ els →
       box node ≠ (0, 0)%N →
       (T + 20 ≤ T')%nat →
       ∃ d,
         NuResizeObserver.nuMap (NuResizeObserver.report fuel T box (init t els page))
         !! node = Some d
         ∧ executed (elapse (Nu.render_body fuel) T' d) = [(T + 20)%nat]
         ∧ context (elapse (Nu.render_body fuel) T' d)
           = Nu.handleRender fuel (Nu.new host None)
         ∧ Timer.pending (timers (elapse (Nu.render_body fuel) T' d)) = [])
  ∧ ResizeObserver.active box
      (NuResizeObserver.observer (NuResizeObserver.report fuel T box (init t els page)))
    = []
  ∧ (∀ node,
       node ∉ els.*1 →
       NuResizeObserver.nuMap (init t els page) !! node
       = NuResizeObserver.nuMap page !! node)
  ∧ dom (NuResizeObserver.nuMap (init t els page))
    = dom (NuResizeObserver.nuMap page) ∪ list_to_set els.*1.
Proof.
  intros Hnd Ht.
  assert (Hfirst : ∀ node host,
    (node, host) ∈ els →
    NuResizeObserver.nuMap (NuResizeObserver.report fuel T box (init t els page)) !! node
    = Some (if decide (box node = (0, 0)%N)
            then debounce (idle_queue T) (Some (Nu.new host None))
            else armed 20 0 1 T (Some (Nu.new host None)) [])).
  { intros node host Hin.
    rewrite report_lookup, (init_lookup t els page node host Hnd Hin).
    rewrite init_entries by (done || (apply list_elem_of_fmap; by exists (node, host))).
    cbn [fmap option_fmap option_map]. f_equal.
    assert (Hidle : elapse (Nu.render_body fuel) T
                      (debounce (idle_queue t) (Some (Nu.new host None)))
                    = debounce (idle_queue T) (Some (Nu.new host None))).
    { unfold elapse, debounce, idle_queue, Timer.tick. cbn. do 2 f_equal. lia. }
    rewrite Hidle. by destruct (decide (box node = (0, 0)%N)). }
  split; [exact Hfirst|]. split; [|split; [|split]].
  - intros node host T' Hin Hbox HT'. eexists. split; [by apply Hfirst|].
    rewrite decide_False by done. rewrite elapse_armed.
    apply Nat.leb_le in HT'. rewrite HT'. by cbn.
  - unfold NuResizeObserver.report. cbn [NuResizeObserver.observer]. apply active_report.
  - by apply init_other.
  - clear Hnd Hfirst. revert page. induction els as [|[n h] els IH]; intros page.
    + cbn [init foldl fmap list_fmap list_to_set]. by rewrite (right_id_L ∅ (∪)).
    + change (init t ((n, h) :: els) page) with (init t els (nut t n h None page)).
      rewrite IH. unfold nut, watch, NuMutationObserver.observe, NuResizeObserver.observe.
      cbn [NuResizeObserver.nuMap].
      rewrite insert_insert_eq, dom_insert_L. cbn [fmap list_fmap fst list_to_set].
      by rewrite (comm_L (∪) {[n]} (dom (NuResizeObserver.nuMap page))), <- (assoc_L (∪)).
Qed.

(** ** More on the raster *)

(** X11.  The scale that the constructor applies to the context never
    reaches a drawing: a new instance has its context scaled by the pixel
    ratio, but every call of a pass that returns, from whatever state of
    the canvas, is made under the identity transform, and so is the context
    the pass leaves.  The coordinates are scaled by hand instead. *)
Theorem handleRender_identity_transform `{Browser} (fuel : nat) (this that : Nu.t) :
  Nu.handleRender fuel this = Some that →
  Forall (fun o => Bitmap.transform (drawn_in o) = (1%Q, 1%Q))
         (Bitmap.ops (Canvas.bitmap (Nu.canvas that)))
  ∧ Bitmap.transform (Canvas.ctx (Nu.canvas that)) = (1%Q, 1%Q)
  ∧ (∀ host styles0,
       Bitmap.transform (Canvas.ctx (Nu.canvas (Nu.new host styles0)))
       = ((1 * Nu.dpr (Nu.new host styles0))%Q, (1 * Nu.dpr (Nu.new host styles0))%Q)).
Proof.
  intros Hrun. apply handleRender_inv in Hrun as (n & _ & _ & ->).
  split; [|split; reflexivity].
  cbn [Nu.pass Nu.canvas Canvas.bitmap Nu.raster Bitmap.ops].
  apply Forall_cons. split; [reflexivity|].
  apply Forall_fmap, Forall_forall. by intros i _.
Qed.

Lemma handleRender_identity_transform_witness :
  Nu.handleRender 6 Reference.five_lines = Some (Nu.pass 5 Reference.five_lines)
  ∧ Bitmap.transform (Canvas.ctx (Nu.canvas (Nu.pass 5 Reference.five_lines)))
    = (1%Q, 1%Q).
Proof.
  assert (Hrun : Nu.handleRender 6 Reference.five_lines
                 = Some (Nu.pass 5 Reference.five_lines))
    by (vm_compute; reflexivity).
  split; [exact Hrun|].
  exact (proj1 (proj2 (handleRender_identity_transform 6 _ _ Hrun))).
Defined.

Lemma unsigned_long_floor (fallback : Z) (q : Q) :
  (0 <= q)%Q → (q < inject_Z (2 ^ 31))%Q → Canvas.unsigned_long fallback q = Qfloor q.
Proof.
  intros H0 H31. unfold Canvas.unsigned_long.
  assert (Hn : (0 ≤ Qnum q)%Z).
  { unfold Qle in H0. cbn in H0. lia. }
  assert (Hf : Z.quot (Qnum q) (Z.pos (Qden q)) = Qfloor q).
  { destruct q as [n d]. cbn in *. apply Z.quot_div_nonneg; lia. }
  rewrite Hf.
  assert (Hlo : (0 ≤ Qfloor q)%Z).
  { change 0%Z with (Qfloor 0). by apply Qfloor_resp_le. }
  assert (Hhi : (Qfloor q < 2 ^ 31)%Z).
  { rewrite Zlt_Qlt. eapply Qle_lt_trans; [apply Qfloor_le|done]. }
  rewrite Z.mod_small by lia.
  destruct (Z.leb_spec (Qfloor q) 2147483647); [done|lia].
Qed.

Lemma Qfloor_dyadic (n k : Z) (j : nat) (q : Q) :
  (q * inject_Z (2 ^ Z.of_nat j) == inject_Z k)%Q →
  Qfloor (inject_Z n * q) = (n * k / 2 ^ Z.of_nat j)%Z.
Proof.
  intros Hq.
  assert (Hp : (0 < 2 ^ Z.of_nat j)%Z) by (apply Z.pow_pos_nonneg; lia).
  transitivity (Qfloor ((n * k)%Z # Z.to_pos (2 ^ Z.of_nat j))).
  - apply Qfloor_comp. destruct q as [a b]. unfold Qeq in *. cbn in *.
    rewrite Z2Pos.id by done. rewrite Pos.mul_1_r in Hq. rewrite Pos.mul_1_l.
    rewrite Z.mul_1_r in Hq. by rewrite <- !Z.mul_assoc, Hq.
  - cbn. by rewrite Z2Pos.id.
Qed.

(** X12.  The size of the raster, for a pixel ratio that is a whole number
    [k] of [2^j]-ths (1, 1.5, 2, 2.5, 3 and the like) and products small
    enough for the arithmetic of the code to be exact on them (the gutter
    width and the scroll height times [k] below 2^53) and to fit the
    canvas (below 2^31 device pixels): the raster of a pass that returns
    is the measured gutter width times the pixel ratio wide and the scroll
    height times the pixel ratio high, both rounded down, and the first
    call of the pass fills all of it with the background. *)
Theorem raster_size `{Browser} (fuel : nat) (this that : Nu.t) (k : positive) (j : nat) :
  Nu.handleRender fuel this = Some that →
  (Nu.dpr this * inject_Z (2 ^ Z.of_nat j) == inject_Z (Z.pos k))%Q →
  (j ≤ 1074)%nat →
  (Z.of_N (nuWidth (Nu.measured this)) * Z.pos k < 2 ^ 53)%Z →
  (Z.of_N (scrollHeight (Nu.el this)) * Z.pos k < 2 ^ 53)%Z →
  (Z.of_N (nuWidth (Nu.measured this)) * Z.pos k / 2 ^ Z.of_nat j < 2 ^ 31)%Z →
  (Z.of_N (scrollHeight (Nu.el this)) * Z.pos k / 2 ^ Z.of_nat j < 2 ^ 31)%Z →
  Canvas.width (Nu.canvas that)
  = (Z.of_N (nuWidth (Nu.measured this)) * Z.pos k / 2 ^ Z.of_nat j)%Z
  ∧ Canvas.height (Nu.canvas that)
    = (Z.of_N (scrollHeight (Nu.el this)) * Z.pos k / 2 ^ Z.of_nat j)%Z
  ∧ (∃ st, head (Bitmap.ops (Canvas.bitmap (Nu.canvas that)))
           = Some (Bitmap.FillRect st 0 0 (inject_Z (Canvas.width (Nu.canvas that)))
                                   (inject_Z (Canvas.height (Nu.canvas that)))))
  ∧ (k = 1%positive → j = 0%nat →
     Canvas.width (Nu.canvas that) = Z.of_N (nuWidth (Nu.measured this))
     ∧ Canvas.height (Nu.canvas that) = Z.of_N (scrollHeight (Nu.el this))).
Proof.
  intros Hrun Hd _ _ _ Hw Hh. apply handleRender_inv in Hrun as (n & _ & _ & ->).
  assert (Hp : (0 < 2 ^ Z.of_nat j)%Z) by (apply Z.pow_pos_nonneg; lia).
  assert (Hdpr : (0 <= Nu.dpr this)%Q).
  { destruct (Nu.dpr this) as [a b]. unfold Qeq, Qle in *. cbn in *. nia. }
  assert (Hpos : ∀ m : N, (0 <= N2Q m * Nu.dpr this)%Q).
  { intros m. apply Qmult_le_0_compat; [|done].
    unfold N2Q. change 0%Q with (inject_Z 0). rewrite <- Zle_Qle. lia. }
  assert (Hfloor : ∀ m : N,
            (Z.of_N m * Z.pos k / 2 ^ Z.of_nat j < 2 ^ 31)%Z →
            ∀ fallback, Canvas.unsigned_long fallback (N2Q m * Nu.dpr this)
                        = (Z.of_N m * Z.pos k / 2 ^ Z.of_nat j)%Z).
  { intros m Hm fallback.
    assert (E : Qfloor (N2Q m * Nu.dpr this) = (Z.of_N m * Z.pos k / 2 ^ Z.of_nat j)%Z)
      by (by apply Qfloor_dyadic).
    rewrite <- E. apply unsigned_long_floor; [apply Hpos|].
    eapply Qlt_le_trans; [apply Qlt_floor|]. rewrite <- Zle_Qle. lia. }
  assert (Ew : Canvas.width (Nu.canvas (Nu.pass n this))
               = (Z.of_N (nuWidth (Nu.measured this)) * Z.pos k / 2 ^ Z.of_nat j)%Z)
    by (by apply Hfloor).
  assert (Eh : Canvas.height (Nu.canvas (Nu.pass n this))
               = (Z.of_N (scrollHeight (Nu.el this)) * Z.pos k / 2 ^ Z.of_nat j)%Z)
    by (by apply Hfloor).
  split; [exact Ew|]. split; [exact Eh|]. split; [by eexists|].
  intros -> ->. rewrite Ew, Eh. change (2 ^ Z.of_nat 0)%Z with 1%Z.
  by rewrite !Z.mul_1_r, !Z.div_1_r.
Qed.

Lemma raster_size_witness :
  @Nu.handleRender (Reference.browser (3 # 2)) 7 (Reference.nu (3 # 2) "20px" 101)
  = Some (@Nu.pass (Reference.browser (3 # 2)) 6 (Reference.nu (3 # 2) "20px" 101))
  ∧ Canvas.width (Nu.canvas (@Nu.pass (Reference.browser (3 # 2)) 6
                               (Reference.nu (3 # 2) "20px" 101))) = 96%Z
  ∧ Canvas.height (Nu.canvas (@Nu.pass (Reference.browser (3 # 2)) 6
                                (Reference.nu (3 # 2) "20px" 101))) = 151%Z.
Proof.
  assert (Hrun : @Nu.handleRender (Reference.browser (3 # 2)) 7
                   (Reference.nu (3 # 2) "20px" 101)
                 = Some (@Nu.pass (Reference.browser (3 # 2)) 6
                           (Reference.nu (3 # 2) "20px" 101)))
    by (vm_compute; reflexivity).
  split; [exact Hrun|].
  destruct (@raster_size (Reference.browser (3 # 2)) 7 _ _ 3%positive 1%nat Hrun
              ltac:(vm_compute; reflexivity) ltac:(lia)
              ltac:(vm_compute; reflexivity) ltac:(vm_compute; reflexivity)
              ltac:(vm_compute; reflexivity) ltac:(vm_compute; reflexivity))
    as (-> & -> & _).
  split; vm_compute; reflexivity.
Defined.

Lemma ceil_div_mono (s s' l : N) :
  (0 < l)%N → (s ≤ s')%N → (ceil_div s l ≤ ceil_div s' l)%N.
Proof. intros Hl Hs. unfold ceil_div. apply N.Div0.div_le_mono. lia. Qed.

(** X13.  When the content grows and the measured line height stays the
    same, the numerals of the longer host are the numerals of the shorter
    one followed by more; none of those already there changes. *)
Theorem numerals_grow `{Browser} (this other : Nu.t) :
  (0 < lineHeight (Nu.measured this))%N →
  lineHeight (Nu.measured other) = lineHeight (Nu.measured this) →
  (scrollHeight (Nu.el this) ≤ scrollHeight (Nu.el other))%N →
  ∃ that that' more,
    (∀ fuel,
       (N.to_nat (ceil_div (scrollHeight (Nu.el other)) (lineHeight (Nu.measured this)))
        < fuel)%nat →
       Nu.handleRender fuel this = Some that ∧ Nu.handleRender fuel other = Some that')
    ∧ numerals (Canvas.bitmap (Nu.canvas that'))
      = (numerals (Canvas.bitmap (Nu.canvas that)) ++ more)%list
    ∧ length more
      = (N.to_nat (ceil_div (scrollHeight (Nu.el other)) (lineHeight (Nu.measured this)))
         - N.to_nat (ceil_div (scrollHeight (Nu.el this)) (lineHeight (Nu.measured this))))%nat.
Proof.
  intros Hl HL Hs.
  pose proof (ceil_div_mono _ _ _ Hl Hs) as Hmono.
  set (n := N.to_nat (ceil_div (scrollHeight (Nu.el this)) (lineHeight (Nu.measured this)))).
  set (n' := N.to_nat (ceil_div (scrollHeight (Nu.el other))
                                (lineHeight (Nu.measured this)))).
  assert (Hn : (n ≤ n')%nat) by (subst n n'; lia).
  exists (Nu.pass n this), (Nu.pass n' other),
         (N_toString <$> (N.of_nat <$> seq (1 + n) (n' - n))).
  split; [|split].
  - intros fuel Hfuel. split.
    + apply handleRender_positive; [done|]. fold n. lia.
    + rewrite <- HL in Hl. subst n'. rewrite <- HL in *.
      by apply handleRender_positive.
  - change (Canvas.bitmap (Nu.canvas (Nu.pass ?k ?x))) with (Nu.raster k x).
    rewrite !numerals_raster, <- !fmap_app, <- seq_app.
    by replace (n + (n' - n))%nat with n' by lia.
  - by rewrite !length_fmap, length_seq.
Qed.

Lemma numerals_grow_witness :
  (0 < lineHeight (Nu.measured Reference.five_lines))%N
  ∧ ∃ that that',
      Nu.handleRender 8 Reference.five_lines = Some that
      ∧ Nu.handleRender 8 (Reference.nu 1 "20px" 140) = Some that'
      ∧ ∃ more, numerals (Canvas.bitmap (Nu.canvas that'))
                = (numerals (Canvas.bitmap (Nu.canvas that)) ++ more)%list
                ∧ length more = 2%nat.
Proof.
  assert (Hl : (0 < lineHeight (Nu.measured Reference.five_lines))%N)
    by (vm_compute; reflexivity).
  split; [exact Hl|].
  destruct (numerals_grow Reference.five_lines (Reference.nu 1 "20px" 140) Hl
              ltac:(vm_compute; reflexivity) ltac:(vm_compute; discriminate))
    as (that & that' & more & Hrun & Hnum & Hlen).
  exists that, that'.
  destruct (Hrun 8%nat ltac:(vm_compute; lia)) as [H1 H2].
  split; [exact H1|]. split; [exact H2|].
  exists more. split; [exact Hnum|]. rewrite Hlen. vm_compute. reflexivity.
Defined.

Lemma getMeasure_reads `{Browser} (css : CSSStyleDeclaration) (styles1 styles2 : TStyles) :
  numberWidth styles1 = numberWidth styles2 →
  numberPadding styles1 = numberPadding styles2 →
  getMeasure css styles1 = getMeasure css styles2.
Proof. intros Hw Hp. unfold getMeasure. by rewrite Hw, Hp. Qed.

(** X14.  The colours are only colours.  Two instances that resolve the
    same gutter width and gutter padding and see the same computed style,
    scroll height and pixel ratio measure the same, and their passes paint
    rasters of the same size with the same calls at the same places in the
    same font: the calls differ in the fill style alone, the one the
    background colour leaves on the canvas for the first and the one the
    numeral colour leaves for the rest. *)
Theorem colours_only_colour `{Browser} (fuel : nat) (this other that that' : Nu.t) :
  Nu.handleRender fuel this = Some that →
  Nu.handleRender fuel other = Some that' →
  computedStyle (Nu.el other) = computedStyle (Nu.el this) →
  scrollHeight (Nu.el other) = scrollHeight (Nu.el this) →
  Nu.dpr other = Nu.dpr this →
  numberWidth (Nu.ensureStyles other).1 = numberWidth (Nu.ensureStyles this).1 →
  numberPadding (Nu.ensureStyles other).1 = numberPadding (Nu.ensureStyles this).1 →
  Nu.measured other = Nu.measured this
  ∧ Canvas.width (Nu.canvas that') = Canvas.width (Nu.canvas that)
  ∧ Canvas.height (Nu.canvas that') = Canvas.height (Nu.canvas that)
  ∧ Bitmap.ops (Canvas.bitmap (Nu.canvas that'))
    = match Bitmap.ops (Canvas.bitmap (Nu.canvas that)) with
      | [] => []
      | background :: numerals0 =>
          filled_with
            (Nu.fill (read (numberBgColor (Nu.ensureStyles other).1)) "#000000")
            background
          :: (filled_with
                (Nu.fill (read (numberColor (Nu.ensureStyles other).1))
                   (Nu.fill (read (numberBgColor (Nu.ensureStyles other).1)) "#000000"))
              <$> numerals0)
      end.
Proof.
  intros Hrun Hrun' Hc Hs Hd Hw Hp.
  assert (Hm : Nu.measured other = Nu.measured this).
  { unfold Nu.measured, getComputedStyle. rewrite Hc. by apply getMeasure_reads. }
  apply handleRender_inv in Hrun as (n & Hn & _ & ->).
  apply handleRender_inv in Hrun' as (n' & Hn' & _ & ->).
  rewrite Hm, Hs, Hn in Hn'. injection Hn' as <-.
  split; [done|].
  cbn [Nu.pass Nu.canvas Canvas.bitmap Canvas.width Canvas.height Nu.raster
       Bitmap.width Bitmap.height Bitmap.ops].
  unfold Canvas.width, Canvas.height. cbn [Canvas.bitmap Bitmap.width Bitmap.height].
  assert (Ew : Nu.raster_width other = Nu.raster_width this)
    by (unfold Nu.raster_width; by rewrite Hm, Hd).
  assert (Eh : Nu.raster_height other = Nu.raster_height this)
    by (unfold Nu.raster_height; by rewrite Hs, Hd).
  split; [done|]. split; [done|].
  f_equal.
  - unfold Nu.background_state, filled_with. cbn. by rewrite Ew, Eh.
  - rewrite <- list_fmap_compose. apply list_fmap_ext. intros _ i _.
    cbn [compose]. unfold Nu.numeral_op, Nu.numeral_state, filled_with.
    cbn [Bitmap.fillStyle Bitmap.textAlign Bitmap.font Bitmap.transform].
    by rewrite Ew, Hm, Hd, Hc.
Qed.

Lemma colours_only_colour_witness :
  Nu.handleRender 6 Reference.five_lines = Some (Nu.pass 5 Reference.five_lines)
  ∧ ∃ red,
      Nu.handleRender 6
        (Nu.new {| attributes := {[ "data-nut-color" := "#f00" ]}; cssText := "";
                   scrollHeight := 100;
                   computedStyle := computedStyle (Reference.host "20px" 100) |} None)
      = Some red
      ∧ Canvas.width (Nu.canvas red) = 64%Z
      ∧ numerals (Canvas.bitmap (Nu.canvas red)) = ["1"; "2"; "3"; "4"; "5"].
Proof.
  assert (Hrun : Nu.handleRender 6 Reference.five_lines
                 = Some (Nu.pass 5 Reference.five_lines))
    by (vm_compute; reflexivity).
  split; [exact Hrun|].
  eexists. split; [vm_compute; reflexivity|].
  match goal with
  | |- Canvas.width (Nu.canvas ?r) = _ ∧ _ =>
      assert (Hred : Nu.handleRender 6
                (Nu.new {| attributes := {[ "data-nut-color" := "#f00" ]}; cssText := "";
                           scrollHeight := 100;
                           computedStyle := computedStyle (Reference.host "20px" 100) |}
                        None) = Some r) by (vm_compute; reflexivity);
      destruct (colours_only_colour 6 _ _ _ _ Hrun Hred eq_refl eq_refl eq_refl
                  ltac:(vm_compute; reflexivity) ltac:(vm_compute; reflexivity))
        as (_ & Hw & _ & _)
  end.
  split; [rewrite Hw|]; vm_compute; reflexivity.
Defined.

(** *** The observers at work *)

Lemma mutation_callback_after_pass_witness :
  Nu.handleRender 6 Reference.five_lines = Some (Nu.pass 5 Reference.five_lines)
  ∧ ∃ d',
      NuMutationObserver.callback
        [{| attributeName := str "style"; type := "attributes"; target := 7 |}]
        {[ 7%nat := debounce (idle_queue 0)
                      (Some (Nu.with_el (fun _ => Reference.host "24px" 120)
                                        (Nu.pass 5 Reference.five_lines))) ]}
      !! 7%nat = Some d'
      ∧ Timer.pending (timers d') = [(0, 20)]%nat.
Proof.
  assert (Hrun : Nu.handleRender 6 Reference.five_lines
                 = Some (Nu.pass 5 Reference.five_lines))
    by (vm_compute; reflexivity).
  split; [exact Hrun|].
  destruct (mutation_callback_after_pass 6 Reference.five_lines
              (Nu.pass 5 Reference.five_lines) (Reference.host "24px" 120)
              {[ 7%nat := debounce (idle_queue 0)
                            (Some (Nu.with_el (fun _ => Reference.host "24px" 120)
                                              (Nu.pass 5 Reference.five_lines))) ]}
              (debounce (idle_queue 0)
                 (Some (Nu.with_el (fun _ => Reference.host "24px" 120)
                                   (Nu.pass 5 Reference.five_lines))))
              {| attributeName := str "style"; type := "attributes"; target := 7 |}
              Hrun (lookup_singleton_eq _ _) eq_refl
              ltac:(intros i; discriminate) eq_refl) as [Hchanged _].
  destruct Hchanged as (d' & Hcb & Htimers & _).
  - exists "lineHeight". split; [|vm_compute; discriminate].
    apply list_elem_of_In. cbn. tauto.
  - exists d'. rewrite Hcb, Htimers. split; [apply lookup_insert_eq|reflexivity].
Defined.

Lemma pass_aftermath_witness :
  Nu.handleRender 6 Reference.five_lines = Some (Nu.pass 5 Reference.five_lines)
  ∧ (0 + 20 ≤ 20)%nat
  ∧ NuMutationObserver.callback
      [{| attributeName := str "style"; type := "attributes"; target := 7 |};
       {| attributeName := str "data-nut-color"; type := "attributes"; target := 7 |}]
      {[ 7%nat := elapse (Nu.render_body 6) 20
                    (armed 20 0 1 0 (Some Reference.five_lines) []) ]}
    = {[ 7%nat := elapse (Nu.render_body 6) 20
                    (armed 20 0 1 0 (Some Reference.five_lines) []) ]}
  ∧ ∃ i' nx',
      NuResizeObserver.callback [7%nat]
        {[ 7%nat := with_context
                      (fun _ => Some (Nu.with_el (fun _ => Reference.host "20px" 120)
                                                 (Nu.pass 5 Reference.five_lines)))
                      (elapse (Nu.render_body 6) 20
                         (armed 20 0 1 0 (Some Reference.five_lines) [])) ]}
      !! 7%nat
      = Some (armed 20 i' nx' 20
                (Some (Nu.with_el (fun _ => Reference.host "20px" 120)
                                  (Nu.pass 5 Reference.five_lines)))
                [20%nat]).
Proof.
  assert (Hrun : Nu.handleRender 6 Reference.five_lines
                 = Some (Nu.pass 5 Reference.five_lines))
    by (vm_compute; reflexivity).
  split; [exact Hrun|]. split; [lia|].
  destruct (pass_aftermath 6 Reference.five_lines (Nu.pass 5 Reference.five_lines)
              7 0 1 0 20 [] Hrun ltac:(lia))
    as (_ & _ & _ & Hquiet & Hresize).
  split.
  - apply Hquiet; [apply lookup_singleton_eq|].
    intros r Hr. apply list_elem_of_In in Hr. cbn in Hr.
    destruct Hr as [<-|[<-|[]]]; reflexivity.
  - destruct (Hresize [7%nat] (Reference.host "20px" 120) 40%nat _
                (lookup_singleton_eq _ _) ltac:(left) ltac:(lia))
      as (i' & nx' & Hr & _).
    exists i', nx'. exact Hr.
Defined.

Lemma init_attaches_witness :
  NoDup [(3%nat, Reference.host "20px" 100); (4%nat, Reference.host "20px" 140)].*1
  ∧ (0 ≤ 5)%nat
  ∧ NuResizeObserver.nuMap
      (NuResizeObserver.report 6 5
         (fun node => if (node =? 3)%nat then (300, 100)%N else (0, 0)%N)
         (init 0 [(3%nat, Reference.host "20px" 100); (4%nat, Reference.host "20px" 140)]
               no_observations))
    !! 3%nat
    = Some (armed 20 0 1 5 (Some (Nu.new (Reference.host "20px" 100) None)) []).
Proof.
  assert (Hnd : NoDup [(3%nat, Reference.host "20px" 100);
                       (4%nat, Reference.host "20px" 140)].*1).
  { cbn. apply NoDup_cons. split; [|apply NoDup_singleton].
    intros Hin. apply list_elem_of_In in Hin. cbn in Hin. lia. }
  split; [exact Hnd|]. split; [lia|].
  destruct (init_attaches 6 0 5
              [(3%nat, Reference.host "20px" 100); (4%nat, Reference.host "20px" 140)]
              (fun node => if (node =? 3)%nat then (300, 100)%N else (0, 0)%N)
              no_observations Hnd ltac:(lia)) as (Hin & _).
  rewrite (Hin 3%nat (Reference.host "20px" 100)) by (apply list_elem_of_In; cbn; tauto).
  reflexivity.
Defined.
